(** * Cadence: timer builder and mutable-state store

    A shallow embedding of [service/history/timerBuilder.go] (the sequence
    key codec, the sequence number generators, the pending timer index and
    the timer builder) and of the conditional-write contract of the
    mutable-state store that [common/persistence/cassandraPersistence_test.go]
    exercises.

    Go's [int64] is modelled as [Z]; where the source can overflow the
    wrap-around is written out with [wrap64].  The bit operations [&], [|]
    and [&^] are [Z.land], [Z.lor] and [Z.ldiff]: on two's complement
    integers they agree with the 64-bit operations for every value in the
    [int64] range. *)

From Stdlib Require Import ZArith Lia Bool.
From stdpp Require Import gmap strings list fin_maps sorting.

Local Open Scope Z_scope.

(** ** Machine integers *)

Definition MaxInt64 : Z := 2 ^ 63 - 1.
Definition MinInt64 : Z := - 2 ^ 63.

(** [v] is a value of Go's [int64]. *)
Definition int64 (v : Z) : Prop := MinInt64 <= v <= MaxInt64.

(** Wrap-around of 64-bit signed arithmetic. *)
Definition wrap64 (v : Z) : Z := (v + 2 ^ 63) mod 2 ^ 64 - 2 ^ 63.

(** ** Timer constants (timerBuilder.go, lines 17-30) *)

Definition TimerQueueSeqNumBits : Z := 26.
Definition TimerQueueSeqNumBitmask : Z := Z.shiftl 1 TimerQueueSeqNumBits - 1.
Definition TimerQueueTimeStampBitmask : Z := Z.ldiff MaxInt64 TimerQueueSeqNumBitmask.
Definition SeqNumMax : Z := Z.land MaxInt64 TimerQueueSeqNumBitmask.
Definition MinTimerKey : Z := -1.
Definition MaxTimerKey : Z := MaxInt64.

Definition DefaultScheduleToStartActivityTimeoutInSecs : Z := 10.
Definition DefaultScheduleToCloseActivityTimeoutInSecs : Z := 10.
Definition DefaultStartToCloseActivityTimeoutInSecs : Z := 10.

Definition emptyTimerID : Z := -1.

(** ** Sequence key codec *)

(** [SequenceID] is an [int64]: visibility time stamp + sequence number. *)
Abbreviation SequenceID := Z (only parsing).

Definition ConstructTimerKey (expiryTime seqNum : Z) : SequenceID :=
  Z.lor (Z.land expiryTime TimerQueueTimeStampBitmask)
        (Z.land seqNum TimerQueueSeqNumBitmask).

Definition DeconstructTimerKey (key : SequenceID) : Z * Z :=
  (Z.land key TimerQueueTimeStampBitmask, Z.land key TimerQueueSeqNumBitmask).

(** The two fields of the key space, as predicates on the inputs of
    [ConstructTimerKey]: a value lies in a field when masking it into the
    field keeps it. *)
Definition inTimeStampField (e : Z) : Prop :=
  0 <= e <= MaxInt64 /\ e mod 2 ^ TimerQueueSeqNumBits = 0.
Definition inSeqNumField (s : Z) : Prop :=
  0 <= s < 2 ^ TimerQueueSeqNumBits.

(** The time stamp bucket of an expiry: what the time stamp field keeps. *)
Definition timeStampOf (e : Z) : Z := Z.land e TimerQueueTimeStampBitmask.

(** ** Go library functions the timer builder calls *)

(** A [time.Time] is represented by its offset from the Unix epoch in
    nanoseconds; [Time.Add] moves it by a [time.Duration] (an [int64] of
    nanoseconds) and [Time.UnixNano] reads it back as an [int64]. *)
Abbreviation Time := Z (only parsing).

Definition Second : Z := 1000000000.
Definition Time_Add (t : Time) (d : Z) : Time := t + d.
Definition UnixNano (t : Time) : Z := wrap64 t.

(** [sort.Search n f]: binary search for the least index in [0, n) at which
    [f] holds ([n] when there is none), for [f] false on a prefix and true
    on the rest.  The loop [for i < j] shrinks [j - i] at every turn, so
    the [n] turns given as fuel by [Search] are never used up. *)
Fixpoint searchLoop (fuel : nat) (f : nat -> bool) (i j : nat) : nat :=
  match fuel with
  | O => i
  | S fuel' =>
      if (i <? j)%nat then
        let h := (i + (j - i) / 2)%nat in
        if negb (f h) then searchLoop fuel' f (h + 1)%nat j
        else searchLoop fuel' f i h
      else i
  end.

Definition Search (n : nat) (f : nat -> bool) : nat := searchLoop n f 0%nat n.

(** ** Types of the persistence package *)

Inductive TimeoutType :=
| TimeoutType_START_TO_CLOSE
| TimeoutType_SCHEDULE_TO_START
| TimeoutType_SCHEDULE_TO_CLOSE
| TimeoutType_HEARTBEAT.

Module DecisionTask.
Record t := mk { TaskID : Z; TaskList : string; ScheduleID : Z }.
End DecisionTask.

Module ActivityTask.
Record t := mk { TaskID : Z; TaskList : string; ScheduleID : Z }.
End ActivityTask.

Module DecisionTimeoutTask.
Record t := mk { TaskID : Z; EventID : Z }.
End DecisionTimeoutTask.

Module ActivityTimeoutTask.
Record t := mk { TaskID : Z; TimeoutType : TimeoutType; EventID : Z }.
End ActivityTimeoutTask.

Module UserTimerTask.
Record t := mk { TaskID : Z; EventID : Z }.
End UserTimerTask.

(** The [persistence.Task] interface, as the closed sum of its
    implementations. *)
Inductive Task :=
| TaskDecision (t : DecisionTask.t)
| TaskActivity (t : ActivityTask.t)
| TaskDecisionTimeout (t : DecisionTimeoutTask.t)
| TaskActivityTimeout (t : ActivityTimeoutTask.t)
| TaskUserTimer (t : UserTimerTask.t).

Inductive TaskType :=
| TaskTypeDecision
| TaskTypeActivity
| TaskTypeDecisionTimeout
| TaskTypeActivityTimeout
| TaskTypeUserTimer.

Definition GetType (task : Task) : TaskType :=
  match task with
  | TaskDecision _ => TaskTypeDecision
  | TaskActivity _ => TaskTypeActivity
  | TaskDecisionTimeout _ => TaskTypeDecisionTimeout
  | TaskActivityTimeout _ => TaskTypeActivityTimeout
  | TaskUserTimer _ => TaskTypeUserTimer
  end.

Definition GetTaskID (task : Task) : Z :=
  match task with
  | TaskDecision t => DecisionTask.TaskID t
  | TaskActivity t => ActivityTask.TaskID t
  | TaskDecisionTimeout t => DecisionTimeoutTask.TaskID t
  | TaskActivityTimeout t => ActivityTimeoutTask.TaskID t
  | TaskUserTimer t => UserTimerTask.TaskID t
  end.

Module ActivityInfo.
Record t := mk {
  ScheduleID : Z;
  StartedID : Z;
  ActivityID : string;
  ScheduleToStartTimeout : Z;
  ScheduleToCloseTimeout : Z;
  StartToCloseTimeout : Z;
  HeartbeatTimeout : Z;
  CancelRequested : bool;
  CancelRequestID : Z
}.
End ActivityInfo.

Module TimerInfo.
Record t := mk {
  TimerID : string;
  ExpiryTime : Time;
  StartedID : Z;
  TaskID : Z
}.
End TimerInfo.

(** The attributes of an ActivityTaskScheduled history event that the timer
    builder reads through the generated getters. *)
Module ActivityTaskScheduledEventAttributes.
Record t := mk {
  ActivityId : string;
  ScheduleToStartTimeoutSeconds : Z;
  ScheduleToCloseTimeoutSeconds : Z;
  StartToCloseTimeoutSeconds : Z;
  HeartbeatTimeoutSeconds : Z
}.
End ActivityTaskScheduledEventAttributes.

(** ** The mutable-state snapshot *)

(** Modelled from the spec: [mutableStateBuilder] and its methods are
    declared in mutableStateBuilder.go, which is not among the sources
    verified here.  The spec describes the snapshot as the pending
    activity map, keyed by scheduleID, and the pending timer map, keyed by
    timerID; a timerID "already has a pending TimerInfo" when the timer map
    holds one under it, and recording an info stores it under its key.

    The maps of the source hold pointers.  The timer builder writes through
    such a pointer once ([ti.TaskID = ...] in [AddUserTimer]) and at once
    stores the same object again under its TimerID, so a map of values
    holds what the map of pointers holds as long as every TimerInfo sits
    under its own TimerID ([timerKeysAgree] below). *)
Record mutableStateBuilder := mkMutableState {
  pendingActivityInfoIDs : gmap Z ActivityInfo.t;
  pendingTimerInfoIDs : gmap string TimerInfo.t
}.

Definition newMutableStateBuilder : mutableStateBuilder :=
  {| pendingActivityInfoIDs := ∅; pendingTimerInfoIDs := ∅ |}.

(** Modelled from the spec: the pending TimerInfo of [timerID], if any. *)
Definition isTimerRunning (e : mutableStateBuilder) (timerID : string)
  : bool * option TimerInfo.t :=
  match pendingTimerInfoIDs e !! timerID with
  | Some a => (true, Some a)
  | None => (false, None)
  end.

(** Modelled from the spec: the pending ActivityInfo of [scheduleID], if any. *)
Definition isActivityRunning (e : mutableStateBuilder) (scheduleID : Z)
  : bool * option ActivityInfo.t :=
  match pendingActivityInfoIDs e !! scheduleID with
  | Some a => (true, Some a)
  | None => (false, None)
  end.

(** Modelled from the spec: stores a TimerInfo into the snapshot. *)
Definition UpdatePendingTimers (e : mutableStateBuilder) (timerID : string)
    (ti : TimerInfo.t) : mutableStateBuilder :=
  {| pendingActivityInfoIDs := pendingActivityInfoIDs e;
     pendingTimerInfoIDs := <[timerID := ti]> (pendingTimerInfoIDs e) |}.

(** Modelled from the spec: records an ActivityInfo into the snapshot. *)
Definition UpdatePendingActivity (e : mutableStateBuilder) (scheduleID : Z)
    (ai : ActivityInfo.t) : mutableStateBuilder :=
  {| pendingActivityInfoIDs := <[scheduleID := ai]> (pendingActivityInfoIDs e);
     pendingTimerInfoIDs := pendingTimerInfoIDs e |}.

(** Every pending TimerInfo is stored under its own TimerID. *)
Definition timerKeysAgree (e : mutableStateBuilder) : Prop :=
  forall k ti, pendingTimerInfoIDs e !! k = Some ti -> TimerInfo.TimerID ti = k.

(** A pending TimerInfo has a persisted timer task when its TaskID is not
    the empty sentinel. *)
Definition taskCreated (ti : TimerInfo.t) : bool :=
  negb (TimerInfo.TaskID ti =? emptyTimerID).

(** [ti] with its TaskID set, the write [ti.TaskID = ...]. *)
Definition withTaskID (ti : TimerInfo.t) (taskID : Z) : TimerInfo.t :=
  {| TimerInfo.TimerID := TimerInfo.TimerID ti;
     TimerInfo.ExpiryTime := TimerInfo.ExpiryTime ti;
     TimerInfo.StartedID := TimerInfo.StartedID ti;
     TimerInfo.TaskID := taskID |}.

(** Modelled from the spec: [common.AddSecondsToBaseTime] is declared in
    package common, which is not among the sources verified here; the spec
    gives the absolute expiry as now plus the timeout, the seconds being
    scaled to the nanoseconds of the base time. *)
Definition AddSecondsToBaseTime (baseTimeInNanoSec durationInSeconds : Z) : Z :=
  UnixNano (Time_Add baseTimeInNanoSec (wrap64 (durationInSeconds * Second))).

(** ** Sequence number generators *)

(** The interface [SequenceNumberGenerator]: [NextSeq] hands out a number
    and moves the generator on. *)
Class SequenceNumberGenerator (G : Type) := NextSeq : G -> Z * G.

Record localSeqNumGenerator := mkLocalSeqNumGenerator { counter : Z }.

(** [atomic.AddInt64(&l.counter, 1)] returns the incremented counter. *)
#[export] Instance localSeqNumGenerator_NextSeq
  : SequenceNumberGenerator localSeqNumGenerator :=
  fun l => let c := wrap64 (counter l + 1) in (c, {| counter := c |}).

(** The shard context is an interface of the history service; the timer
    builder only asks it for the next timer sequence number. *)
Class ShardContext (C : Type) := GetTimerSequenceNumber : C -> Z * C.

Record shardSeqNumGenerator (C : Type) := mkShardSeqNumGenerator { context : C }.
Arguments mkShardSeqNumGenerator {C} _.
Arguments context {C} _.

#[export] Instance shardSeqNumGenerator_NextSeq {C : Type} {sc : ShardContext C}
  : SequenceNumberGenerator (shardSeqNumGenerator C) :=
  fun s => let '(n, c) := GetTimerSequenceNumber (context s) in
           (n, {| context := c |}).

(** A shard context for examples: a plain counter. *)
Record counterShard := mkCounterShard { timerSequenceNumber : Z }.

#[export] Instance counterShard_ShardContext : ShardContext counterShard :=
  fun c => let n := wrap64 (timerSequenceNumber c + 1) in
           (n, {| timerSequenceNumber := n |}).

(** ** The timer builder *)

Module timerDetails.
Record t := mk {
  SequenceID : SequenceID;
  TimerTask : Task;
  TaskCreated : bool
}.
End timerDetails.

Record timerBuilder (G : Type) := mkTimerBuilder {
  timers : list timerDetails.t;
  pendingUserTimers : gmap Z TimerInfo.t;
  seqNumGen : G;
  localSeqNumGen : localSeqNumGenerator
}.
Arguments mkTimerBuilder {G} _ _ _ _.
Arguments timers {G} _.
Arguments pendingUserTimers {G} _.
Arguments seqNumGen {G} _.
Arguments localSeqNumGen {G} _.

(** The errors [AddUserTimer] and the activity timeouts build with
    [fmt.Errorf]. *)
Inductive timerError :=
| ErrInvalidUserTimeout
| ErrTimerIDExists (timerID : string) (old : TimerInfo.t)
| ErrActivityInfoNotFound (scheduleID : Z).

(** [IsTimerExpired] reads nothing of the builder. *)
Definition IsTimerExpired (td : timerDetails.t) (referenceTime : Z) : bool :=
  let '(expiry, _) := DeconstructTimerKey (timerDetails.SequenceID td) in
  expiry <=? referenceTime.

(** The probe of [insertTimer]'s search.  [sort.Search] only probes indices
    below the length, where [tb.timers[i]] is in range. *)
Definition notBefore (ts : list timerDetails.t) (td : timerDetails.t) (i : nat)
  : bool :=
  match ts !! i with
  | Some t => timerDetails.SequenceID td <=? timerDetails.SequenceID t
  | None => false
  end.

Section TimerBuilder.
Context {G : Type} {gen : SequenceNumberGenerator G}.

(** [emptyEventID] is a constant of the history package whose declaration
    is not among the sources verified here: a parameter. *)
Variable emptyEventID : Z.

Definition newTimerBuilder (seqNumGen : G) : timerBuilder G :=
  {| timers := [];
     pendingUserTimers := ∅;
     seqNumGen := seqNumGen;
     localSeqNumGen := {| counter := 1 |} |}.

Definition AllTimers (tb : timerBuilder G) : list timerDetails.t := timers tb.

Definition UserTimer (tb : timerBuilder G) (taskID : SequenceID)
  : bool * option TimerInfo.t :=
  match pendingUserTimers tb !! taskID with
  | Some ti => (true, Some ti)
  | None => (false, None)
  end.

Definition createDecisionTimeoutTask (now : Time) (tb : timerBuilder G)
    (fireTimeOut eventID : Z) : DecisionTimeoutTask.t * timerBuilder G :=
  let expiryTime := AddSecondsToBaseTime (UnixNano now) fireTimeOut in
  let '(n, g) := NextSeq (seqNumGen tb) in
  let seqID := ConstructTimerKey expiryTime n in
  ({| DecisionTimeoutTask.TaskID := seqID;
      DecisionTimeoutTask.EventID := eventID |},
   mkTimerBuilder (timers tb) (pendingUserTimers tb) g (localSeqNumGen tb)).

Definition createActivityTimeoutTask (now : Time) (tb : timerBuilder G)
    (fireTimeOut : Z) (timeoutType : TimeoutType) (eventID : Z)
  : ActivityTimeoutTask.t * timerBuilder G :=
  let expiryTime := AddSecondsToBaseTime (UnixNano now) fireTimeOut in
  let '(n, g) := NextSeq (seqNumGen tb) in
  let seqID := ConstructTimerKey expiryTime n in
  ({| ActivityTimeoutTask.TaskID := seqID;
      ActivityTimeoutTask.TimeoutType := timeoutType;
      ActivityTimeoutTask.EventID := eventID |},
   mkTimerBuilder (timers tb) (pendingUserTimers tb) g (localSeqNumGen tb)).

Definition createUserTimerTask (tb : timerBuilder G)
    (expiryTime startedEventID : Z) : UserTimerTask.t * timerBuilder G :=
  let '(n, g) := NextSeq (seqNumGen tb) in
  let seqID := ConstructTimerKey expiryTime n in
  ({| UserTimerTask.TaskID := seqID;
      UserTimerTask.EventID := startedEventID |},
   mkTimerBuilder (timers tb) (pendingUserTimers tb) g (localSeqNumGen tb)).

Definition AddActivityTimeoutTask (now : Time) (tb : timerBuilder G)
    (scheduleID : Z) (timeoutType : TimeoutType) (fireTimeout : Z)
  : option ActivityTimeoutTask.t * timerBuilder G :=
  if fireTimeout <=? 0 then (None, tb)
  else
    let '(timeOutTask, tb') :=
      createActivityTimeoutTask now tb fireTimeout timeoutType scheduleID in
    (Some timeOutTask, tb').

Definition AddScheduleToStartActivityTimeout (now : Time) (tb : timerBuilder G)
    (scheduleID : Z) (scheduleEvent : ActivityTaskScheduledEventAttributes.t)
    (msBuilder : mutableStateBuilder)
  : option ActivityTimeoutTask.t * timerBuilder G * mutableStateBuilder :=
  let scheduleToStartTimeout :=
    let v := ActivityTaskScheduledEventAttributes.ScheduleToStartTimeoutSeconds
               scheduleEvent in
    if v <=? 0 then DefaultScheduleToStartActivityTimeoutInSecs else v in
  let scheduleToCloseTimeout :=
    let v := ActivityTaskScheduledEventAttributes.ScheduleToCloseTimeoutSeconds
               scheduleEvent in
    if v <=? 0 then DefaultScheduleToCloseActivityTimeoutInSecs else v in
  let startToCloseTimeout :=
    let v := ActivityTaskScheduledEventAttributes.StartToCloseTimeoutSeconds
               scheduleEvent in
    if v <=? 0 then DefaultStartToCloseActivityTimeoutInSecs else v in
  let heartbeatTimeout :=
    ActivityTaskScheduledEventAttributes.HeartbeatTimeoutSeconds scheduleEvent in
  let '(t, tb') :=
    AddActivityTimeoutTask now tb scheduleID TimeoutType_SCHEDULE_TO_START
                           scheduleToStartTimeout in
  let msBuilder' :=
    UpdatePendingActivity msBuilder scheduleID
      {| ActivityInfo.ScheduleID := scheduleID;
         ActivityInfo.StartedID := emptyEventID;
         ActivityInfo.ActivityID :=
           ActivityTaskScheduledEventAttributes.ActivityId scheduleEvent;
         ActivityInfo.ScheduleToStartTimeout := scheduleToStartTimeout;
         ActivityInfo.ScheduleToCloseTimeout := scheduleToCloseTimeout;
         ActivityInfo.StartToCloseTimeout := startToCloseTimeout;
         ActivityInfo.HeartbeatTimeout := heartbeatTimeout;
         ActivityInfo.CancelRequested := false;
         ActivityInfo.CancelRequestID := emptyEventID |} in
  (t, tb', msBuilder').

Definition AddScheduleToCloseActivityTimeout (now : Time) (tb : timerBuilder G)
    (scheduleID : Z) (msBuilder : mutableStateBuilder)
  : (option ActivityTimeoutTask.t * option timerError) * timerBuilder G :=
  match isActivityRunning msBuilder scheduleID with
  | (true, Some ai) =>
      let '(t, tb') :=
        AddActivityTimeoutTask now tb scheduleID TimeoutType_SCHEDULE_TO_CLOSE
                               (ActivityInfo.ScheduleToCloseTimeout ai) in
      ((t, None), tb')
  | _ => ((None, Some (ErrActivityInfoNotFound scheduleID)), tb)
  end.

Definition AddStartToCloseActivityTimeout (now : Time) (tb : timerBuilder G)
    (scheduleID : Z) (msBuilder : mutableStateBuilder)
  : (option ActivityTimeoutTask.t * option timerError) * timerBuilder G :=
  match isActivityRunning msBuilder scheduleID with
  | (true, Some ai) =>
      let '(t, tb') :=
        AddActivityTimeoutTask now tb scheduleID TimeoutType_START_TO_CLOSE
                               (ActivityInfo.StartToCloseTimeout ai) in
      ((t, None), tb')
  | _ => ((None, Some (ErrActivityInfoNotFound scheduleID)), tb)
  end.

Definition AddHeartBeatActivityTimeout (now : Time) (tb : timerBuilder G)
    (scheduleID : Z) (msBuilder : mutableStateBuilder)
  : (option ActivityTimeoutTask.t * option timerError) * timerBuilder G :=
  match isActivityRunning msBuilder scheduleID with
  | (true, Some ai) =>
      let '(t, tb') :=
        AddActivityTimeoutTask now tb scheduleID TimeoutType_HEARTBEAT
                               (ActivityInfo.HeartbeatTimeout ai) in
      ((t, None), tb')
  | _ => ((None, Some (ErrActivityInfoNotFound scheduleID)), tb)
  end.

(** [insertTimer]: both branches of the source build the list with [td] at
    index [i]; [append(tb.timers[:i], append(timers{td}, tb.timers[i:]...)...)]
    copies the tail before the head is extended. *)
Definition insertTimer (tb : timerBuilder G) (td : timerDetails.t)
  : bool * timerBuilder G :=
  let size := length (timers tb) in
  let i := Search size (notBefore (timers tb) td) in
  let timers' :=
    if (i =? size)%nat then timers tb ++ [td]
    else take i (timers tb) ++ ([td] ++ drop i (timers tb)) in
  ((i =? 0)%nat,
   mkTimerBuilder timers' (pendingUserTimers tb) (seqNumGen tb)
                  (localSeqNumGen tb)).

Definition createTimer (tb : timerBuilder G) (expires : Z)
    (task : UserTimerTask.t) (taskCreated : bool)
  : (timerDetails.t * bool) * timerBuilder G :=
  let '(seqNum, l) := NextSeq (localSeqNumGen tb) in
  let timer :=
    {| timerDetails.SequenceID := ConstructTimerKey expires seqNum;
       timerDetails.TimerTask := TaskUserTimer task;
       timerDetails.TaskCreated := taskCreated |} in
  let '(isFirst, tb') :=
    insertTimer (mkTimerBuilder (timers tb) (pendingUserTimers tb)
                                (seqNumGen tb) l) timer in
  ((timer, isFirst), tb').

Definition loadUserTimer (tb : timerBuilder G) (expires : Z)
    (task : UserTimerTask.t) (taskCreated : bool)
  : (timerDetails.t * bool) * timerBuilder G :=
  createTimer tb expires task taskCreated.

(** One turn of the loop of [LoadUserTimers], at the pending TimerInfo [v]. *)
Definition loadOne (tb : timerBuilder G) (v : TimerInfo.t) : timerBuilder G :=
  let '((td, _), tb') :=
    loadUserTimer tb (UnixNano (TimerInfo.ExpiryTime v))
      {| UserTimerTask.TaskID := 0;
         UserTimerTask.EventID := TimerInfo.StartedID v |}
      (negb (TimerInfo.TaskID v =? emptyTimerID)) in
  mkTimerBuilder (timers tb')
                 (<[timerDetails.SequenceID td := v]> (pendingUserTimers tb'))
                 (seqNumGen tb') (localSeqNumGen tb').

(** [LoadUserTimers] ranges over the map [pendingTimerInfoIDs].  Go leaves
    the order of a map range unspecified: [order] lists the keys in the
    order this range visits them (a permutation of the keys of the map,
    see [rangeOrder]). *)
Definition LoadUserTimers (order : list string) (tb : timerBuilder G)
    (msBuilder : mutableStateBuilder) : timerBuilder G :=
  fold_left
    (fun tb k =>
       match pendingTimerInfoIDs msBuilder !! k with
       | Some v => loadOne tb v
       | None => tb
       end)
    order
    (mkTimerBuilder [] ∅ (seqNumGen tb) (localSeqNumGen tb)).

Definition createNewTask (tb : timerBuilder G) (td : timerDetails.t)
  : option Task * timerBuilder G :=
  let task := timerDetails.TimerTask td in
  let '(expiry, _) := DeconstructTimerKey (timerDetails.SequenceID td) in
  match task with
  | TaskUserTimer userTimerTask =>
      let '(t, tb') :=
        createUserTimerTask tb expiry (UserTimerTask.EventID userTimerTask) in
      (Some (TaskUserTimer t), tb')
  | _ => (None, tb)
  end.

Definition firstTimer (tb : timerBuilder G) : option Task * timerBuilder G :=
  match timers tb with
  | td :: _ =>
      if negb (timerDetails.TaskCreated td) then createNewTask tb td
      else (None, tb)
  | [] => (None, tb)
  end.

(** [AddUserTimer] returns the task and the error of the source, and the
    builder and the snapshot as the call leaves them; [None] stands for a
    run-time panic of the source (an index out of range or a nil
    dereference), which [AddUserTimer_returns] excludes. *)
Definition AddUserTimer (now : Time) (order : list string)
    (tb : timerBuilder G) (timerID : string) (fireTimeout startedID : Z)
    (msBuilder : mutableStateBuilder)
  : option ((option Task * option timerError)
            * timerBuilder G * mutableStateBuilder) :=
  if fireTimeout <? 0 then
    Some ((None, Some ErrInvalidUserTimeout), tb, msBuilder)
  else
    match isTimerRunning msBuilder timerID with
    | (true, Some ti) =>
        Some ((None, Some (ErrTimerIDExists timerID ti)), tb, msBuilder)
    | (true, None) => None
    | (false, _) =>
        let expiryTime := Time_Add now (wrap64 (fireTimeout * Second)) in
        let msBuilder1 :=
          UpdatePendingTimers msBuilder timerID
            {| TimerInfo.TimerID := timerID;
               TimerInfo.ExpiryTime := expiryTime;
               TimerInfo.StartedID := startedID;
               TimerInfo.TaskID := emptyTimerID |} in
        let tb1 := LoadUserTimers order tb msBuilder1 in
        let '(timerTask, tb2) := firstTimer tb1 in
        match timerTask with
        | Some task =>
            match timers tb2 with
            | td0 :: _ =>
                match pendingUserTimers tb2 !! timerDetails.SequenceID td0 with
                | Some ti =>
                    let ti' := withTaskID ti (GetTaskID task) in
                    Some ((Some task, None),
                          mkTimerBuilder
                            (timers tb2)
                            (<[timerDetails.SequenceID td0 := ti']>
                               (pendingUserTimers tb2))
                            (seqNumGen tb2) (localSeqNumGen tb2),
                          UpdatePendingTimers msBuilder1
                                              (TimerInfo.TimerID ti') ti')
                | None => None
                end
            | [] => None
            end
        | None => Some ((None, None), tb2, msBuilder1)
        end
    end.

End TimerBuilder.

(** The order in which a range over the pending timers visits the keys. *)
Definition rangeOrder (msBuilder : mutableStateBuilder) (order : list string)
  : Prop :=
  order ≡ₚ (map_to_list (pendingTimerInfoIDs msBuilder)).*1.

(** The order of the pending timer index. *)
Definition seqLe (a b : timerDetails.t) : Prop :=
  timerDetails.SequenceID a <= timerDetails.SequenceID b.

(** ** The mutable-state store *)

(** Modelled from the spec: the store that cassandraPersistence_test.go
    drives is not among the sources verified here.  The spec gives its data
    model (section 3), its operations (section 4.5) and its errors
    (section 7); the test fixes what the spec leaves open: a new execution
    is in state Created with a decision pending, and a stale RangeID is
    reported as ShardOwnershipLost by create as well as by update, even when
    the execution exists already.  The states of an execution: *)
Inductive WorkflowState :=
| WorkflowStateCreated
| WorkflowStateRunning
| WorkflowStateCompleted
| WorkflowStateTerminated.

(** Modelled from the spec: the execution row (section 3); the opaque byte
    payloads are strings. *)
Module WorkflowExecutionInfo.
Record t := mk {
  WorkflowID : string;
  RunID : string;
  TaskList : string;
  History : string;
  ExecutionContext : string;
  State : WorkflowState;
  NextEventID : Z;
  LastProcessedEvent : Z;
  LastUpdatedTimestamp : Time;
  DecisionPending : bool
}.
End WorkflowExecutionInfo.

(** Modelled from the spec: the errors of the store (section 7). *)
Inductive storeError :=
| AlreadyStarted
| ConditionFailed
| ShardOwnershipLost
| NotFound.

(** Modelled from the spec: the state of the store of one shard.  An
    execution is identified by (workflowID, runID). *)
Record Store := mkStore {
  shardRangeID : Z;
  transferSequence : Z;
  executions : gmap (string * string) WorkflowExecutionInfo.t;
  transferQueue : list (string * string * Task);
  timerQueue : list (string * string * Task);
  storedActivityInfos : gmap (string * string) (gmap Z ActivityInfo.t);
  storedTimerInfos : gmap (string * string) (gmap string TimerInfo.t)
}.

Definition emptyStore (rangeID : Z) : Store :=
  mkStore rangeID 0 ∅ [] [] ∅ ∅.

(** Modelled from the spec: the arguments of [createWorkflowExecution], with
    the RangeID that the request of the test carries. *)
Module CreateWorkflowExecutionRequest.
Record t := mk {
  Execution : string * string;
  TaskList : string;
  History : string;
  ExecutionContext : string;
  NextEventID : Z;
  LastProcessedEvent : Z;
  DecisionScheduleID : Z;
  TimerTasks : list Task;
  RangeID : option Z
}.
End CreateWorkflowExecutionRequest.

(** Modelled from the spec: the arguments of [updateWorkflowExecution]. *)
Module UpdateWorkflowExecutionRequest.
Record t := mk {
  newInfo : WorkflowExecutionInfo.t;
  newDecisionTaskIDs : list Z;
  newTransferTasks : list Task;
  conditionNextEventID : Z;
  newTimerTasks : list Task;
  timerTaskToDelete : option Task;
  newActivityInfos : list ActivityInfo.t;
  deleteActivityID : option Z;
  newTimerInfos : list TimerInfo.t;
  deleteTimerIDs : list string;
  rangeID : option Z
}.
End UpdateWorkflowExecutionRequest.

(** Modelled from the spec: a write is fenced off when it supplies a RangeID
    that is not the current RangeID of the shard. *)
Definition fencedOff (rangeID : option Z) (s : Store) : bool :=
  match rangeID with
  | Some r => negb (r =? shardRangeID s)
  | None => false
  end.

(** Modelled from the spec: decision tasks for the schedule IDs [ids], with
    task IDs drawn from the shard sequence [seq]. *)
Fixpoint decisionTasks (exec : string * string) (taskList : string) (seq : Z)
    (ids : list Z) : list (string * string * Task) * Z :=
  match ids with
  | [] => ([], seq)
  | id :: ids' =>
      let '(tasks, seq') := decisionTasks exec taskList (seq + 1) ids' in
      ((exec,
        TaskDecision {| DecisionTask.TaskID := seq + 1;
                        DecisionTask.TaskList := taskList;
                        DecisionTask.ScheduleID := id |}) :: tasks, seq')
  end.

(** Modelled from the spec: [createWorkflowExecution] fails with
    AlreadyStarted when the execution exists and otherwise inserts the
    execution row, a decision task for [decisionScheduleID] and the timer
    tasks, and returns the ID of the decision task. *)
Definition createWorkflowExecution (now : Time)
    (req : CreateWorkflowExecutionRequest.t) (s : Store)
  : (storeError + Z) * Store :=
  let exec := CreateWorkflowExecutionRequest.Execution req in
  if fencedOff (CreateWorkflowExecutionRequest.RangeID req) s then
    (inl ShardOwnershipLost, s)
  else
    match executions s !! exec with
    | Some _ => (inl AlreadyStarted, s)
    | None =>
        let info :=
          {| WorkflowExecutionInfo.WorkflowID := fst exec;
             WorkflowExecutionInfo.RunID := snd exec;
             WorkflowExecutionInfo.TaskList :=
               CreateWorkflowExecutionRequest.TaskList req;
             WorkflowExecutionInfo.History :=
               CreateWorkflowExecutionRequest.History req;
             WorkflowExecutionInfo.ExecutionContext :=
               CreateWorkflowExecutionRequest.ExecutionContext req;
             WorkflowExecutionInfo.State := WorkflowStateCreated;
             WorkflowExecutionInfo.NextEventID :=
               CreateWorkflowExecutionRequest.NextEventID req;
             WorkflowExecutionInfo.LastProcessedEvent :=
               CreateWorkflowExecutionRequest.LastProcessedEvent req;
             WorkflowExecutionInfo.LastUpdatedTimestamp := now;
             WorkflowExecutionInfo.DecisionPending := true |} in
        let '(tasks, seq) :=
          decisionTasks exec (CreateWorkflowExecutionRequest.TaskList req)
            (transferSequence s)
            [CreateWorkflowExecutionRequest.DecisionScheduleID req] in
        (inr seq,
         mkStore (shardRangeID s) seq
                 (<[exec := info]> (executions s))
                 (transferQueue s ++ tasks)
                 (timerQueue s
                    ++ map (pair exec)
                           (CreateWorkflowExecutionRequest.TimerTasks req))
                 (storedActivityInfos s) (storedTimerInfos s))
    end.

(** Modelled from the spec: what an accepted update writes.  It replaces the
    execution row (the store assigns the time stamp), appends the new
    transfer and timer tasks, deletes the named timer task, and upserts and
    deletes the named activity and timer infos. *)
Definition applyUpdate (now : Time) (req : UpdateWorkflowExecutionRequest.t)
    (s : Store) : Store :=
  let info := UpdateWorkflowExecutionRequest.newInfo req in
  let exec := (WorkflowExecutionInfo.WorkflowID info,
               WorkflowExecutionInfo.RunID info) in
  let row :=
    {| WorkflowExecutionInfo.WorkflowID := WorkflowExecutionInfo.WorkflowID info;
       WorkflowExecutionInfo.RunID := WorkflowExecutionInfo.RunID info;
       WorkflowExecutionInfo.TaskList := WorkflowExecutionInfo.TaskList info;
       WorkflowExecutionInfo.History := WorkflowExecutionInfo.History info;
       WorkflowExecutionInfo.ExecutionContext :=
         WorkflowExecutionInfo.ExecutionContext info;
       WorkflowExecutionInfo.State := WorkflowExecutionInfo.State info;
       WorkflowExecutionInfo.NextEventID :=
         WorkflowExecutionInfo.NextEventID info;
       WorkflowExecutionInfo.LastProcessedEvent :=
         WorkflowExecutionInfo.LastProcessedEvent info;
       WorkflowExecutionInfo.LastUpdatedTimestamp := now;
       WorkflowExecutionInfo.DecisionPending :=
         WorkflowExecutionInfo.DecisionPending info |} in
  let '(tasks, seq) :=
    decisionTasks exec (WorkflowExecutionInfo.TaskList info)
      (transferSequence s)
      (UpdateWorkflowExecutionRequest.newDecisionTaskIDs req) in
  let keptTimers :=
    match UpdateWorkflowExecutionRequest.timerTaskToDelete req with
    | Some gone =>
        filter (fun et => GetTaskID et.2 <> GetTaskID gone) (timerQueue s)
    | None => timerQueue s
    end in
  let activities :=
    let upserted :=
      fold_left (fun m ai => <[ActivityInfo.ScheduleID ai := ai]> m)
                (UpdateWorkflowExecutionRequest.newActivityInfos req)
                (default ∅ (storedActivityInfos s !! exec)) in
    match UpdateWorkflowExecutionRequest.deleteActivityID req with
    | Some id => delete id upserted
    | None => upserted
    end in
  let timerInfos :=
    fold_left (fun m id => delete id m)
              (UpdateWorkflowExecutionRequest.deleteTimerIDs req)
              (fold_left (fun m ti => <[TimerInfo.TimerID ti := ti]> m)
                         (UpdateWorkflowExecutionRequest.newTimerInfos req)
                         (default ∅ (storedTimerInfos s !! exec))) in
  mkStore (shardRangeID s) seq
          (<[exec := row]> (executions s))
          (transferQueue s ++ tasks
             ++ map (pair exec)
                    (UpdateWorkflowExecutionRequest.newTransferTasks req))
          (keptTimers
             ++ map (pair exec)
                    (UpdateWorkflowExecutionRequest.newTimerTasks req))
          (<[exec := activities]> (storedActivityInfos s))
          (<[exec := timerInfos]> (storedTimerInfos s)).

(** Modelled from the spec: [updateWorkflowExecution].  A supplied RangeID
    that is not the shard's fails with ShardOwnershipLost, before the
    condition is looked at; then the write is accepted only if the stored
    nextEventID equals [conditionNextEventID], and fails with
    ConditionFailed otherwise (an execution that is not stored has no
    nextEventID to match).  A failed update leaves the store as it is. *)
Definition updateWorkflowExecution (now : Time)
    (req : UpdateWorkflowExecutionRequest.t) (s : Store)
  : option storeError * Store :=
  let info := UpdateWorkflowExecutionRequest.newInfo req in
  let exec := (WorkflowExecutionInfo.WorkflowID info,
               WorkflowExecutionInfo.RunID info) in
  if fencedOff (UpdateWorkflowExecutionRequest.rangeID req) s then
    (Some ShardOwnershipLost, s)
  else
    match executions s !! exec with
    | Some stored =>
        if WorkflowExecutionInfo.NextEventID stored
           =? UpdateWorkflowExecutionRequest.conditionNextEventID req
        then (None, applyUpdate now req s)
        else (Some ConditionFailed, s)
    | None => (Some ConditionFailed, s)
    end.

(** Modelled from the spec: [getWorkflowExecutionInfo]. *)
Definition getWorkflowExecutionInfo (exec : string * string) (s : Store)
  : storeError + WorkflowExecutionInfo.t :=
  match executions s !! exec with
  | Some info => inr info
  | None => inl NotFound
  end.

(** ** Vocabulary of the statements *)

(** Where [insertTimer] puts the candidate. *)
Definition insertAt (ts : list timerDetails.t) (td : timerDetails.t) : nat :=
  Search (length ts) (notBefore ts td).

(** The time stamp bucket in which the pending timer index files a
    TimerInfo. *)
Definition stampOfTimer (v : TimerInfo.t) : Z :=
  timeStampOf (UnixNano (TimerInfo.ExpiryTime v)).

(** The index entry that [LoadUserTimers] builds for the TimerInfo [v] when
    the local generator is [l]. *)
Definition loadedTimer (l : localSeqNumGenerator) (v : TimerInfo.t)
  : timerDetails.t :=
  {| timerDetails.SequenceID :=
       ConstructTimerKey (UnixNano (TimerInfo.ExpiryTime v)) (fst (NextSeq l));
     timerDetails.TimerTask :=
       TaskUserTimer {| UserTimerTask.TaskID := 0;
                        UserTimerTask.EventID := TimerInfo.StartedID v |};
     timerDetails.TaskCreated := taskCreated v |}.

(** [td] is an index entry loaded from the TimerInfo [v]. *)
Definition loadedFrom (td : timerDetails.t) (v : TimerInfo.t) : Prop :=
  exists l, td = loadedTimer l v.

(** The values a range in the order [order] visits. *)
Definition rangeValues (msBuilder : mutableStateBuilder) (order : list string)
  : list TimerInfo.t :=
  omap (fun k => pendingTimerInfoIDs msBuilder !! k) order.

(** No two pending timers share a time stamp bucket. *)
Definition distinctStamps (msBuilder : mutableStateBuilder) : Prop :=
  forall k1 k2 v1 v2,
    pendingTimerInfoIDs msBuilder !! k1 = Some v1 ->
    pendingTimerInfoIDs msBuilder !! k2 = Some v2 ->
    stampOfTimer v1 = stampOfTimer v2 -> k1 = k2.

(** ** Sequences of AddUserTimer calls *)

(** One call of [AddUserTimer] on the shared builder and snapshot: its
    arguments, the clock reading of its [time.Now()] and the order of the
    map range of its [LoadUserTimers]. *)
Record userTimerCall := mkUserTimerCall {
  callNow : Time;
  callOrder : list string;
  callTimerID : string;
  callFireTimeout : Z;
  callStartedID : Z
}.

(** The expiry the call computes, [time.Now().Add(fireTimeout * time.Second)]. *)
Definition callExpiry (c : userTimerCall) : Time :=
  Time_Add (callNow c) (wrap64 (callFireTimeout c * Second)).

(** The calls run one after the other; [None] when one of them panics. *)
Fixpoint addUserTimers {G : Type} {gen : SequenceNumberGenerator G}
    (tb : timerBuilder G) (ms : mutableStateBuilder)
    (calls : list userTimerCall)
  : option (list (option Task * option timerError)
            * timerBuilder G * mutableStateBuilder) :=
  match calls with
  | [] => Some ([], tb, ms)
  | c :: calls' =>
      match AddUserTimer (callNow c) (callOrder c) tb (callTimerID c)
                         (callFireTimeout c) (callStartedID c) ms with
      | Some (r, tb', ms') =>
          match addUserTimers tb' ms' calls' with
          | Some (rs, tb'', ms'') => Some (r :: rs, tb'', ms'')
          | None => None
          end
      | None => None
      end
  end.

(** A call succeeded when it returned no error. *)
Definition succeeded (r : option Task * option timerError) : Prop :=
  snd r = None.

(** The call at index [i] had an expiry before those of all earlier calls:
    its timer was the earliest pending one when it was added. *)
Definition earliestWhenAdded (calls : list userTimerCall) (i : nat)
    (c : userTimerCall) : Prop :=
  forall j c', (j < i)%nat -> calls !! j = Some c' ->
               callExpiry c < callExpiry c'.

(** The map range of every call visits the timers pending at that time,
    those of the calls so far, in some order. *)
Definition rangesFollow (calls : list userTimerCall) : Prop :=
  forall i c, calls !! i = Some c ->
              callOrder c ≡ₚ callTimerID <$> take (S i) calls.

(** The calls of a run: distinct timer IDs, timeouts that are not negative,
    expiries that are [int64] nanoseconds after the epoch and lie in
    distinct time stamp buckets. *)
Definition spacedCalls (calls : list userTimerCall) : Prop :=
  NoDup (callTimerID <$> calls) /\
  Forall (fun c => 0 <= callFireTimeout c /\ 0 <= callExpiry c <= MaxInt64)
         calls /\
  NoDup ((fun c => timeStampOf (callExpiry c)) <$> calls) /\
  rangesFollow calls.

(** The snapshot holds one TimerInfo per call, with a task exactly for the
    calls that were earliest when added. *)
Definition timersRecorded (calls : list userTimerCall)
    (ms : mutableStateBuilder) : Prop :=
  (forall k v, pendingTimerInfoIDs ms !! k = Some v ->
               exists i c, calls !! i = Some c /\ callTimerID c = k) /\
  (forall i c, calls !! i = Some c ->
     exists ti,
       pendingTimerInfoIDs ms !! callTimerID c = Some ti /\
       TimerInfo.TimerID ti = callTimerID c /\
       TimerInfo.ExpiryTime ti = callExpiry c /\
       (taskCreated ti = true <-> earliestWhenAdded calls i c)).

(** The number of pending TimerInfos that have a persisted timer task. *)
Definition tasksCreated (ms : mutableStateBuilder) : nat :=
  length (filter (fun kv => taskCreated kv.2 = true)
                 (map_to_list (pendingTimerInfoIDs ms))).

(** ** Example inputs *)

Definition shard0 : shardSeqNumGenerator counterShard :=
  mkShardSeqNumGenerator (mkCounterShard 0).

(** Two timers, the later one added first. *)
Definition decreasingCalls : list userTimerCall :=
  [ mkUserTimerCall 0 ["t1"%string] "t1" 100 5;
    mkUserTimerCall 0 ["t1"%string; "t2"%string] "t2" 50 6 ].

(** Two timers whose expiries, 2 ns and 1 ns, share a time stamp bucket;
    [second] is the order of the map range of the second call. *)
Definition sameBucketCalls (second : list string) : list userTimerCall :=
  [ mkUserTimerCall 2 ["t1"%string] "t1" 0 5;
    mkUserTimerCall 1 second "t2" 0 6 ].

(** Three timers; the second is the earliest. *)
Definition threeCalls : list userTimerCall :=
  [ mkUserTimerCall 0 ["t1"%string] "t1" 100 5;
    mkUserTimerCall 1 ["t2"%string; "t1"%string] "t2" 50 6;
    mkUserTimerCall 2 ["t1"%string; "t3"%string; "t2"%string] "t3" 200 7 ].

(** The scenario of TestUpdateWorkflow: an execution created with
    nextEventID 3 in a shard of RangeID 1, then updated to nextEventID 5. *)
Definition testExecution : string * string :=
  ("update-workflow-test"%string,
   "5ba5e531-e46b-48d9-b4b3-859919839553"%string).

Definition testCreate : CreateWorkflowExecutionRequest.t :=
  CreateWorkflowExecutionRequest.mk testExecution "queue1" "event1" "" 3 0 2 []
                                    None.

Definition updatedInfo : WorkflowExecutionInfo.t :=
  WorkflowExecutionInfo.mk (fst testExecution) (snd testExecution) "queue1"
                           "event2" "" WorkflowStateCreated 5 2 0 true.

Definition testUpdate (decisionScheduleID condition : Z) (rangeID : option Z)
  : UpdateWorkflowExecutionRequest.t :=
  UpdateWorkflowExecutionRequest.mk updatedInfo [decisionScheduleID] []
                                    condition [] None [] None [] [] rangeID.

Definition storeAfterCreate : Store :=
  snd (createWorkflowExecution 10 testCreate (emptyStore 1)).

Definition storeAfterUpdate : Store :=
  snd (updateWorkflowExecution 20 (testUpdate 4 3 None) storeAfterCreate).

(** A sorted index of two timers and a candidate that goes between them. *)
Definition indexedTimer (sequenceID : Z) : timerDetails.t :=
  timerDetails.mk sequenceID
                  (TaskUserTimer (UserTimerTask.mk 0 1)) false.

Definition twoTimers : timerBuilder (shardSeqNumGenerator counterShard) :=
  mkTimerBuilder [indexedTimer 10; indexedTimer 30] ∅ shard0
                 (mkLocalSeqNumGenerator 1).

(** The earliest-only materialization as the spec words it: after the
    calls, exactly one pending TimerInfo has a persisted task, and it is the
    one with the smallest expiry.  A second definition, to be compared with
    what [addUserTimers] does. *)
Definition earliestOnly {G : Type} {gen : SequenceNumberGenerator G}
    (tb : timerBuilder G) (calls : list userTimerCall) : Prop :=
  forall results tb' ms',
    addUserTimers tb newMutableStateBuilder calls = Some (results, tb', ms') ->
    Forall succeeded results ->
    tasksCreated ms' = 1%nat /\
    forall c ti,
      c ∈ calls ->
      pendingTimerInfoIDs ms' !! callTimerID c = Some ti ->
      TimerInfo.TaskID ti <> emptyTimerID ->
      forall c', c' ∈ calls -> callExpiry c <= callExpiry c'.

(** ** sort.Interface on the timers *)

(** [Len], [Swap] and [Less] of [timers].  An index out of range panics:
    [None]. *)
Definition Len (t : list timerDetails.t) : nat := length t.

Definition Swap (t : list timerDetails.t) (i j : nat)
  : option (list timerDetails.t) :=
  match t !! i, t !! j with
  | Some a, Some b => Some (<[j := a]> (<[i := b]> t))
  | _, _ => None
  end.

Definition Less (t : list timerDetails.t) (i j : nat) : option bool :=
  match t !! i, t !! j with
  | Some a, Some b =>
      Some (timerDetails.SequenceID a <? timerDetails.SequenceID b)
  | _, _ => None
  end.

(** ** Successive sequence numbers *)

(** [n] calls of [NextSeq], one after the other. *)
Fixpoint nextSeqs {G : Type} {gen : SequenceNumberGenerator G} (n : nat)
    (g : G) : list Z * G :=
  match n with
  | O => ([], g)
  | S n' =>
      let '(x, g') := NextSeq g in
      let '(xs, g'') := nextSeqs n' g' in
      (x :: xs, g'')
  end.

(** ** Further example inputs *)

(** A snapshot with two pending timers in different time stamp buckets, the
    later one with a task. *)
Definition twoPending : mutableStateBuilder :=
  UpdatePendingTimers
    (UpdatePendingTimers newMutableStateBuilder "a"
       (TimerInfo.mk "a" 200000000000 5 199984414721))
    "b" (TimerInfo.mk "b" 100000000000 6 emptyTimerID).


(** ** The codec in arithmetic *)

Lemma SeqNumBitmask_ones : TimerQueueSeqNumBitmask = Z.ones 26.
Proof. reflexivity. Qed.

Lemma TimeStampBitmask_shift :
  TimerQueueTimeStampBitmask = Z.shiftl (Z.ones 37) 26.
Proof. reflexivity. Qed.

Lemma land_SeqNumBitmask v : Z.land v TimerQueueSeqNumBitmask = v mod 2 ^ 26.
Proof. rewrite SeqNumBitmask_ones. apply Z.land_ones. lia. Qed.

Lemma land_TimeStampBitmask v :
  Z.land v TimerQueueTimeStampBitmask = ((v / 2 ^ 26) mod 2 ^ 37) * 2 ^ 26.
Proof.
  rewrite TimeStampBitmask_shift.
  rewrite <- Z.shiftl_mul_pow2, <- Z.land_ones, <- Z.shiftr_div_pow2 by lia.
  apply Z.bits_inj'. intros n Hn.
  rewrite Z.land_spec.
  destruct (Z.lt_ge_cases n 26) as [Hlt | Hge].
  - rewrite !Z.shiftl_spec_low by lia. apply andb_false_r.
  - rewrite !Z.shiftl_spec by lia. rewrite Z.land_spec, Z.shiftr_spec by lia.
    replace (n - 26 + 26) with n by lia. reflexivity.
Qed.

Lemma timeStampOf_arith e : timeStampOf e = ((e / 2 ^ 26) mod 2 ^ 37) * 2 ^ 26.
Proof. apply land_TimeStampBitmask. Qed.

Lemma land_fields_disjoint a b :
  Z.land (Z.shiftl a 26) (Z.land b (Z.ones 26)) = 0.
Proof.
  apply Z.bits_inj'. intros n Hn.
  rewrite Z.bits_0, !Z.land_spec.
  destruct (Z.lt_ge_cases n 26) as [Hlt | Hge].
  - rewrite Z.shiftl_spec_low by lia. reflexivity.
  - rewrite Z.ones_spec_high by lia. rewrite !andb_false_r. reflexivity.
Qed.

Lemma ConstructTimerKey_arith e s :
  ConstructTimerKey e s = timeStampOf e + s mod 2 ^ 26.
Proof.
  unfold ConstructTimerKey, timeStampOf.
  rewrite land_SeqNumBitmask, land_TimeStampBitmask.
  rewrite <- Z.shiftl_mul_pow2, <- (Z.land_ones s 26) by lia.
  rewrite <- Z.lxor_lor by apply land_fields_disjoint.
  symmetry. apply Z.add_nocarry_lxor, land_fields_disjoint.
Qed.

Lemma timeStampOf_bounds e :
  0 <= timeStampOf e <= MaxInt64 /\ timeStampOf e mod 2 ^ 26 = 0.
Proof.
  rewrite timeStampOf_arith.
  pose proof (Z.mod_pos_bound (e / 2 ^ 26) (2 ^ 37) ltac:(lia)) as Hb.
  split; [unfold MaxInt64; lia | apply Z.mod_mul; lia].
Qed.

Lemma timeStampOf_nonneg e :
  0 <= e <= MaxInt64 -> timeStampOf e = e - e mod 2 ^ 26.
Proof.
  unfold MaxInt64. intros He. rewrite timeStampOf_arith.
  rewrite Z.mod_small.
  - pose proof (Z.div_mod e (2 ^ 26) ltac:(lia)). lia.
  - split; [apply Z.div_pos; lia |].
    apply Z.div_lt_upper_bound; lia.
Qed.

Lemma timeStampOf_field e : inTimeStampField e -> timeStampOf e = e.
Proof.
  intros [He Hm]. rewrite timeStampOf_nonneg by exact He.
  change (2 ^ TimerQueueSeqNumBits) with (2 ^ 26) in Hm. lia.
Qed.

Lemma ConstructTimerKey_bounds e s :
  timeStampOf e <= ConstructTimerKey e s < timeStampOf e + 2 ^ 26.
Proof.
  rewrite ConstructTimerKey_arith.
  pose proof (Z.mod_pos_bound s (2 ^ 26) ltac:(lia)). lia.
Qed.

Lemma ConstructTimerKey_nonneg e s : 0 <= ConstructTimerKey e s <= MaxInt64.
Proof.
  pose proof (ConstructTimerKey_bounds e s) as Hk.
  pose proof (timeStampOf_bounds e) as [Hb Hm].
  rewrite timeStampOf_arith in *.
  pose proof (Z.mod_pos_bound (e / 2 ^ 26) (2 ^ 37) ltac:(lia)) as Hq.
  unfold MaxInt64 in *. lia.
Qed.

Lemma timeStampOf_ConstructTimerKey e s :
  timeStampOf (ConstructTimerKey e s) = timeStampOf e.
Proof.
  pose proof (ConstructTimerKey_nonneg e s) as Hn.
  rewrite (timeStampOf_nonneg _ Hn).
  rewrite ConstructTimerKey_arith.
  pose proof (timeStampOf_bounds e) as [Hb Hm].
  pose proof (Z.mod_pos_bound s (2 ^ 26) ltac:(lia)) as Hs.
  rewrite Z.add_mod, Hm, Z.add_0_l, Z.mod_mod, Z.mod_mod by lia. lia.
Qed.

Lemma DeconstructTimerKey_ConstructTimerKey e s :
  DeconstructTimerKey (ConstructTimerKey e s) = (timeStampOf e, s mod 2 ^ 26).
Proof.
  unfold DeconstructTimerKey.
  fold (timeStampOf (ConstructTimerKey e s)).
  rewrite timeStampOf_ConstructTimerKey, land_SeqNumBitmask.
  rewrite ConstructTimerKey_arith.
  pose proof (timeStampOf_bounds e) as [Hb Hm].
  rewrite Z.add_mod, Hm, Z.add_0_l, Z.mod_mod, Z.mod_mod by lia. reflexivity.
Qed.

(** Keys are ordered as their time stamp buckets whenever the buckets differ. *)
Lemma timeStampOf_mono k1 k2 :
  0 <= k1 -> k1 <= k2 -> k2 <= MaxInt64 -> timeStampOf k1 <= timeStampOf k2.
Proof.
  intros H1 H12 H2. rewrite !timeStampOf_nonneg by lia.
  pose proof (Z.div_le_mono k1 k2 (2 ^ 26) ltac:(lia) H12) as Hd.
  pose proof (Z.div_mod k1 (2 ^ 26) ltac:(lia)).
  pose proof (Z.div_mod k2 (2 ^ 26) ltac:(lia)).
  lia.
Qed.

Lemma ConstructTimerKey_lt_bucket e1 s1 e2 s2 :
  timeStampOf e1 < timeStampOf e2 ->
  ConstructTimerKey e1 s1 < ConstructTimerKey e2 s2.
Proof.
  intros Hlt.
  pose proof (ConstructTimerKey_bounds e1 s1).
  pose proof (ConstructTimerKey_bounds e2 s2).
  pose proof (timeStampOf_bounds e1) as [_ Hm1].
  pose proof (timeStampOf_bounds e2) as [_ Hm2].
  apply Z.mod_divide in Hm1, Hm2; try lia.
  destruct Hm1 as [q1 Hq1], Hm2 as [q2 Hq2]. lia.
Qed.

(** ** Binary search *)

Lemma searchLoop_spec (n : nat) (f : nat -> bool) :
  (forall a b, (a <= b < n)%nat -> f a = true -> f b = true) ->
  forall fuel i j,
    (j - i <= fuel)%nat -> (i <= j <= n)%nat ->
    (forall k, (k < i)%nat -> f k = false) ->
    (forall k, (j <= k < n)%nat -> f k = true) ->
    let r := searchLoop fuel f i j in
    (i <= r <= j)%nat /\
    (forall k, (k < r)%nat -> f k = false) /\
    (forall k, (r <= k < n)%nat -> f k = true).
Proof.
  intros Hmono fuel.
  induction fuel as [| fuel IH]; intros i j Hfuel Hij Hlow Hhigh;
    cbn [searchLoop].
  - assert (i = j) by lia. subst j. split; [lia | split; assumption].
  - destruct (Nat.ltb_spec i j) as [Hlt | Hge].
    + set (h := (i + (j - i) / 2)%nat).
      assert (i <= h < j)%nat as Hh.
      { subst h. pose proof (Nat.div_lt (j - i) 2 ltac:(lia) ltac:(lia)). lia. }
      destruct (f h) eqn:Hfh; cbn [negb].
      * destruct (IH i h) as (Hr & Hl & Hu); [lia | lia | exact Hlow | |].
        { intros k Hk. apply (Hmono h k); [lia | exact Hfh]. }
        split; [lia | split; assumption].
      * destruct (IH (h + 1)%nat j) as (Hr & Hl & Hu); [lia | lia | | exact Hhigh |].
        { intros k Hk. destruct (f k) eqn:Hfk; [| reflexivity].
          rewrite <- Hfh. symmetry. apply (Hmono k h); [lia | exact Hfk]. }
        split; [lia | split; assumption].
    + assert (i = j) by lia. subst j. split; [lia | split; assumption].
Qed.

Lemma Search_spec (n : nat) (f : nat -> bool) :
  (forall a b, (a <= b < n)%nat -> f a = true -> f b = true) ->
  (Search n f <= n)%nat /\
  (forall k, (k < Search n f)%nat -> f k = false) /\
  (forall k, (Search n f <= k < n)%nat -> f k = true).
Proof.
  intros Hmono. unfold Search.
  destruct (searchLoop_spec n f Hmono n 0%nat n) as (Hr & Hl & Hu);
    try lia; auto with lia.
Qed.

(** ** The pending timer index *)

#[local] Instance seqLe_trans : Transitive seqLe.
Proof. intros a b c. unfold seqLe. lia. Qed.

Lemma notBefore_mono ts td :
  StronglySorted seqLe ts ->
  forall a b, (a <= b < length ts)%nat ->
    notBefore ts td a = true -> notBefore ts td b = true.
Proof.
  intros Hs a b Hab. unfold notBefore.
  destruct (lookup_lt_is_Some_2 ts a ltac:(lia)) as [x Hx].
  destruct (lookup_lt_is_Some_2 ts b ltac:(lia)) as [y Hy].
  rewrite Hx, Hy. intros Hle. apply Z.leb_le in Hle. apply Z.leb_le.
  destruct (decide (a = b)) as [-> | Hne]; [congruence |].
  rewrite <- (take_drop_middle ts b y Hy) in Hs, Hx.
  rewrite lookup_app_l in Hx by (rewrite length_take; lia).
  apply StronglySorted_app in Hs as (Hcross & _ & _).
  specialize (Hcross x y). unfold seqLe in Hcross.
  etrans; [exact Hle |]. apply Hcross; [| left].
  eapply list_elem_of_lookup_2; exact Hx.
Qed.

Lemma insertTimer_eq {G} (tb : timerBuilder G) td :
  insertTimer tb td =
    ((insertAt (timers tb) td =? 0)%nat,
     mkTimerBuilder
       (take (insertAt (timers tb) td) (timers tb)
          ++ td :: drop (insertAt (timers tb) td) (timers tb))
       (pendingUserTimers tb) (seqNumGen tb) (localSeqNumGen tb)).
Proof.
  unfold insertTimer, insertAt.
  destruct (Nat.eqb_spec (Search (length (timers tb)) (notBefore (timers tb) td))
                         (length (timers tb))) as [-> | _]; [| reflexivity].
  rewrite firstn_all, drop_all. reflexivity.
Qed.

Lemma insertAt_spec ts td :
  StronglySorted seqLe ts ->
  (insertAt ts td <= length ts)%nat /\
  Forall (fun t => timerDetails.SequenceID t < timerDetails.SequenceID td)
         (take (insertAt ts td) ts) /\
  Forall (fun t => timerDetails.SequenceID td <= timerDetails.SequenceID t)
         (drop (insertAt ts td) ts).
Proof.
  intros Hs. unfold insertAt.
  destruct (Search_spec (length ts) (notBefore ts td) (notBefore_mono ts td Hs))
    as (Hr & Hl & Hu).
  generalize dependent (Search (length ts) (notBefore ts td)). intros i Hr Hl Hu.
  split; [exact Hr |]. split; apply Forall_lookup_2; intros k t Hk.
  - apply lookup_take_Some in Hk as [Hk Hlt].
    specialize (Hl k Hlt). unfold notBefore in Hl. rewrite Hk in Hl.
    apply Z.leb_gt in Hl. exact Hl.
  - rewrite lookup_drop in Hk.
    pose proof (lookup_lt_Some _ _ _ Hk) as Hlen.
    specialize (Hu (i + k)%nat ltac:(lia)).
    unfold notBefore in Hu. rewrite Hk in Hu. apply Z.leb_le in Hu. exact Hu.
Qed.

Lemma insertAt_sorted ts td :
  StronglySorted seqLe ts ->
  StronglySorted seqLe (take (insertAt ts td) ts ++ td :: drop (insertAt ts td) ts).
Proof.
  intros Hs. destruct (insertAt_spec ts td Hs) as (_ & Hlow & Hhigh).
  rewrite Forall_forall in Hlow, Hhigh.
  pose proof Hs as Hs'. rewrite <- (take_drop (insertAt ts td) ts) in Hs'.
  apply StronglySorted_app in Hs' as (Hcross & Hs1 & Hs2).
  apply StronglySorted_app_2; [| exact Hs1 |].
  - intros x1 x2 H1 H2. apply elem_of_cons in H2 as [-> | H2].
    + unfold seqLe. specialize (Hlow x1 H1). lia.
    + apply Hcross; assumption.
  - apply StronglySorted_cons. split; [| exact Hs2].
    apply Forall_forall. exact Hhigh.
Qed.

Lemma insertAt_perm ts td :
  take (insertAt ts td) ts ++ td :: drop (insertAt ts td) ts ≡ₚ td :: ts.
Proof.
  rewrite <- Permutation_middle. constructor. rewrite take_drop. reflexivity.
Qed.

Lemma insertAt_front ts td :
  StronglySorted seqLe ts ->
  insertAt ts td = 0%nat <->
  Forall (fun t => timerDetails.SequenceID td <= timerDetails.SequenceID t) ts.
Proof.
  intros Hs. destruct (insertAt_spec ts td Hs) as (Hlen & Hlow & Hhigh). split.
  - intros H0. rewrite H0 in Hhigh. rewrite drop_0 in Hhigh. exact Hhigh.
  - intros Hall. destruct (insertAt ts td) as [| i] eqn:Hi; [reflexivity |].
    destruct ts as [| t ts']; simpl in Hlen; [lia |].
    simpl in Hlow. apply Forall_cons in Hlow as [Hlt _].
    apply Forall_cons in Hall as [Hle _]. lia.
Qed.

(** ** Loading the pending timers *)

Section Loading.
Context {G : Type} {gen : SequenceNumberGenerator G}.

Lemma loadOne_eq (tb : timerBuilder G) v :
  loadOne tb v =
    let td := loadedTimer (localSeqNumGen tb) v in
    mkTimerBuilder
      (take (insertAt (timers tb) td) (timers tb)
         ++ td :: drop (insertAt (timers tb) td) (timers tb))
      (<[timerDetails.SequenceID td := v]> (pendingUserTimers tb))
      (seqNumGen tb) (snd (NextSeq (localSeqNumGen tb))).
Proof.
  unfold loadOne, loadUserTimer, createTimer.
  destruct (NextSeq (localSeqNumGen tb)) as [seqNum l] eqn:Hnext.
  rewrite insertTimer_eq. cbn [timers pendingUserTimers seqNumGen localSeqNumGen].
  unfold loadedTimer, taskCreated. rewrite Hnext. reflexivity.
Qed.

Lemma LoadUserTimers_values order (tb : timerBuilder G) ms :
  LoadUserTimers order tb ms =
    fold_left loadOne (rangeValues ms order)
              (mkTimerBuilder [] ∅ (seqNumGen tb) (localSeqNumGen tb)).
Proof.
  unfold LoadUserTimers, rangeValues.
  generalize (mkTimerBuilder [] ∅ (seqNumGen tb) (localSeqNumGen tb)).
  induction order as [| k order IH]; intros acc; [reflexivity |].
  cbn [fold_left omap list_omap].
  destruct (pendingTimerInfoIDs ms !! k) as [v |]; cbn [fold_left]; apply IH.
Qed.

Lemma loadedFrom_stamp td v :
  loadedFrom td v -> timeStampOf (timerDetails.SequenceID td) = stampOfTimer v.
Proof. intros [l ->]. apply timeStampOf_ConstructTimerKey. Qed.

Lemma loadedFrom_range td v :
  loadedFrom td v -> 0 <= timerDetails.SequenceID td <= MaxInt64.
Proof. intros [l ->]. apply ConstructTimerKey_nonneg. Qed.

Lemma loadedFrom_TaskCreated td v :
  loadedFrom td v -> timerDetails.TaskCreated td = taskCreated v.
Proof. intros [l ->]. reflexivity. Qed.

Lemma loadedFrom_TimerTask td v :
  loadedFrom td v ->
  timerDetails.TimerTask td =
    TaskUserTimer {| UserTimerTask.TaskID := 0;
                     UserTimerTask.EventID := TimerInfo.StartedID v |}.
Proof. intros [l ->]. reflexivity. Qed.

(** What the loop of [LoadUserTimers] has built after the values [vs]. *)
Lemma load_invariant (vs : list TimerInfo.t) (tb0 : timerBuilder G) :
  timers tb0 = [] ->
  NoDup (map stampOfTimer vs) ->
  let tb := fold_left loadOne vs tb0 in
  StronglySorted seqLe (timers tb) /\
  (forall td, td ∈ timers tb ->
     exists v, v ∈ vs /\ loadedFrom td v /\
               pendingUserTimers tb !! timerDetails.SequenceID td = Some v) /\
  (forall v, v ∈ vs -> exists td, td ∈ timers tb /\ loadedFrom td v) /\
  seqNumGen tb = seqNumGen tb0.
Proof.
  intros Hnil. induction vs as [| v vs IH] using rev_ind; intros Hnd tb.
  - subst tb. cbn [fold_left]. rewrite Hnil.
    split; [constructor |]. split; [| split; [| reflexivity]].
    + intros td Htd. apply elem_of_nil in Htd as [].
    + intros v Hv. apply elem_of_nil in Hv as [].
  - rewrite map_app in Hnd. apply NoDup_app in Hnd as (Hnd & Hfresh & _).
    specialize (IH Hnd). cbn zeta in IH.
    destruct IH as (Hsorted & Hback & Hforth & Hgen).
    subst tb. rewrite fold_left_app. cbn [fold_left].
    set (tb := fold_left loadOne vs tb0) in *.
    rewrite loadOne_eq. cbn zeta.
    set (td := loadedTimer (localSeqNumGen tb) v).
    cbn [timers pendingUserTimers seqNumGen].
    assert (loadedFrom td v) as Htdv by (eexists; reflexivity).
    split; [apply insertAt_sorted; exact Hsorted |].
    split; [| split; [| exact Hgen]].
    + intros td' Hin. rewrite insertAt_perm in Hin.
      apply elem_of_cons in Hin as [-> | Hin].
      * exists v. split; [apply elem_of_app; right; left |].
        split; [exact Htdv | apply lookup_insert_eq].
      * destruct (Hback td' Hin) as (v' & Hv' & Hfrom & Hlook).
        exists v'. split; [apply elem_of_app; left; exact Hv' |].
        split; [exact Hfrom |].
        rewrite lookup_insert_ne; [exact Hlook |].
        intros Heq. apply (Hfresh (stampOfTimer v')).
        -- apply list_elem_of_fmap. exists v'. split; [reflexivity | exact Hv'].
        -- rewrite <- (loadedFrom_stamp _ _ Hfrom), <- Heq,
             (loadedFrom_stamp _ _ Htdv). left.
    + intros v' Hv'. apply elem_of_app in Hv' as [Hv' | Hv'].
      * destruct (Hforth v' Hv') as (td' & Hin & Hfrom).
        exists td'. split; [| exact Hfrom].
        rewrite insertAt_perm. right. exact Hin.
      * apply list_elem_of_singleton in Hv' as ->.
        exists td. split; [| exact Htdv]. rewrite insertAt_perm. left.
Qed.

(** The head of the loaded index is the pending timer of the least bucket. *)
Lemma load_head (vs : list TimerInfo.t) (tb0 : timerBuilder G) td0 rest :
  timers tb0 = [] ->
  NoDup (map stampOfTimer vs) ->
  timers (fold_left loadOne vs tb0) = td0 :: rest ->
  exists v0, v0 ∈ vs /\ loadedFrom td0 v0 /\
    pendingUserTimers (fold_left loadOne vs tb0)
      !! timerDetails.SequenceID td0 = Some v0 /\
    forall v, v ∈ vs -> stampOfTimer v0 <= stampOfTimer v.
Proof.
  intros Hnil Hnd Hhead.
  destruct (load_invariant vs tb0 Hnil Hnd) as (Hsorted & Hback & Hforth & _).
  rewrite Hhead in Hsorted, Hback, Hforth.
  destruct (Hback td0 ltac:(left)) as (v0 & Hv0 & Hfrom0 & Hlook).
  exists v0. repeat split; try assumption.
  intros v Hv. destruct (Hforth v Hv) as (td & Hin & Hfrom).
  rewrite <- (loadedFrom_stamp _ _ Hfrom0), <- (loadedFrom_stamp _ _ Hfrom).
  pose proof (loadedFrom_range _ _ Hfrom0) as Hr0.
  pose proof (loadedFrom_range _ _ Hfrom) as Hr.
  apply elem_of_cons in Hin as [-> | Hin]; [lia |].
  apply StronglySorted_cons in Hsorted as [Hall _].
  rewrite Forall_forall in Hall. specialize (Hall td Hin). unfold seqLe in Hall.
  apply timeStampOf_mono; lia.
Qed.

Lemma load_nonempty (vs : list TimerInfo.t) (tb0 : timerBuilder G) :
  vs <> [] -> timers (fold_left loadOne vs tb0) <> [].
Proof.
  induction vs as [| v vs IH] using rev_ind; intros Hne; [congruence |].
  rewrite fold_left_app. cbn [fold_left]. rewrite loadOne_eq. cbn zeta.
  cbn [timers]. intros Heq. apply app_eq_nil in Heq as [_ Heq]. discriminate.
Qed.

End Loading.

(** ** Ranging over the pending timers *)

Lemma rangeOrder_elem ms order k :
  rangeOrder ms order -> k ∈ order <-> is_Some (pendingTimerInfoIDs ms !! k).
Proof.
  intros Hro. unfold rangeOrder in Hro. rewrite Hro.
  rewrite list_elem_of_fmap. split.
  - intros ([k' v] & -> & Hin). apply elem_of_map_to_list in Hin. eauto.
  - intros [v Hv]. exists (k, v). split; [reflexivity |].
    apply elem_of_map_to_list. exact Hv.
Qed.

Lemma rangeOrder_NoDup ms order : rangeOrder ms order -> NoDup order.
Proof.
  intros Hro. unfold rangeOrder in Hro. rewrite Hro.
  apply NoDup_fst_map_to_list.
Qed.

Lemma rangeValues_elem ms order v :
  rangeOrder ms order ->
  v ∈ rangeValues ms order <-> exists k, pendingTimerInfoIDs ms !! k = Some v.
Proof.
  intros Hro. unfold rangeValues. rewrite list_elem_of_omap. split.
  - intros (k & _ & Hk). eauto.
  - intros (k & Hk). exists k. split; [| exact Hk].
    apply (rangeOrder_elem ms order k Hro). eauto.
Qed.

Lemma rangeValues_NoDup ms order :
  NoDup order -> distinctStamps ms ->
  NoDup (map stampOfTimer (rangeValues ms order)).
Proof.
  intros Hnd Hdist. unfold rangeValues.
  induction order as [| k order IH]; [constructor |].
  apply NoDup_cons in Hnd as [Hk Hnd]. cbn [omap list_omap].
  destruct (pendingTimerInfoIDs ms !! k) as [v |] eqn:Hv; [| apply IH, Hnd].
  cbn [map]. apply NoDup_cons. split; [| apply IH, Hnd].
  intros Hin. apply list_elem_of_fmap in Hin as (v' & Heq & Hin).
  apply list_elem_of_omap in Hin as (k' & Hk' & Hv').
  rewrite (Hdist k k' v v' Hv Hv' Heq) in Hk. contradiction.
Qed.

(** ** One call of AddUserTimer *)

Section AddUserTimerStep.
Context {G : Type} {gen : SequenceNumberGenerator G}.

Lemma timerKeysAgree_update ms k ti :
  timerKeysAgree ms -> TimerInfo.TimerID ti = k ->
  timerKeysAgree (UpdatePendingTimers ms k ti).
Proof.
  intros Hagree Hk k' ti'. unfold UpdatePendingTimers.
  cbn [pendingTimerInfoIDs]. rewrite lookup_insert.
  case_decide as Hd; [intros [= <-]; congruence | apply Hagree].
Qed.

Lemma firstTimer_created (tb : timerBuilder G) td0 rest :
  timers tb = td0 :: rest -> timerDetails.TaskCreated td0 = true ->
  firstTimer tb = (None, tb).
Proof. intros Hts Hc. unfold firstTimer. rewrite Hts, Hc. reflexivity. Qed.

Lemma firstTimer_new (tb : timerBuilder G) td0 rest v0 :
  timers tb = td0 :: rest -> loadedFrom td0 v0 ->
  timerDetails.TaskCreated td0 = false ->
  firstTimer tb =
    (Some (TaskUserTimer
             {| UserTimerTask.TaskID :=
                  ConstructTimerKey (stampOfTimer v0)
                                    (fst (NextSeq (seqNumGen tb)));
                UserTimerTask.EventID := TimerInfo.StartedID v0 |}),
     mkTimerBuilder (timers tb) (pendingUserTimers tb)
                    (snd (NextSeq (seqNumGen tb))) (localSeqNumGen tb)).
Proof.
  intros Hts Hfrom Hc. unfold firstTimer. rewrite Hts, Hc. cbn [negb].
  unfold createNewTask, createUserTimerTask, DeconstructTimerKey.
  rewrite (loadedFrom_TimerTask _ _ Hfrom).
  fold (timeStampOf (timerDetails.SequenceID td0)).
  rewrite (loadedFrom_stamp _ _ Hfrom).
  destruct (NextSeq (seqNumGen tb)) as [n g]. rewrite Hts. reflexivity.
Qed.

(** A call that passes both checks stores the new TimerInfo, finds the
    pending timer [v0] of the least time stamp bucket at the head of the
    index, and gives it a task unless it has one. *)
Lemma AddUserTimer_step now order (tb : timerBuilder G) timerID fireTimeout
    startedID ms :
  0 <= fireTimeout ->
  pendingTimerInfoIDs ms !! timerID = None ->
  timerKeysAgree ms ->
  let ms1 :=
    UpdatePendingTimers ms timerID
      {| TimerInfo.TimerID := timerID;
         TimerInfo.ExpiryTime := Time_Add now (wrap64 (fireTimeout * Second));
         TimerInfo.StartedID := startedID;
         TimerInfo.TaskID := emptyTimerID |} in
  rangeOrder ms1 order ->
  distinctStamps ms1 ->
  exists k0 v0 tb',
    pendingTimerInfoIDs ms1 !! k0 = Some v0 /\
    (forall k v, pendingTimerInfoIDs ms1 !! k = Some v ->
                 stampOfTimer v0 <= stampOfTimer v) /\
    ((taskCreated v0 = true /\
      AddUserTimer now order tb timerID fireTimeout startedID ms
        = Some ((None, None), tb', ms1)) \/
     (taskCreated v0 = false /\
      exists task,
        0 <= GetTaskID task /\
        AddUserTimer now order tb timerID fireTimeout startedID ms
          = Some ((Some task, None), tb',
                  UpdatePendingTimers ms1 k0 (withTaskID v0 (GetTaskID task))))).
Proof.
  intros Hfire Hfresh Hagree ms1 Hro Hdist.
  assert (timerKeysAgree ms1) as Hagree1
    by (apply timerKeysAgree_update; [exact Hagree | reflexivity]).
  unfold AddUserTimer, isTimerRunning.
  destruct (Z.ltb_spec fireTimeout 0) as [? | _]; [lia |].
  rewrite Hfresh. fold ms1. rewrite LoadUserTimers_values.
  set (tb0 := mkTimerBuilder [] ∅ (seqNumGen tb) (localSeqNumGen tb)).
  set (vs := rangeValues ms1 order).
  assert (NoDup (map stampOfTimer vs)) as Hnd
    by (apply rangeValues_NoDup; [eapply rangeOrder_NoDup; exact Hro | exact Hdist]).
  assert (vs <> []) as Hne.
  { intros Hnil.
    assert (exists v, v ∈ vs) as [v Hv].
    { eexists. apply (rangeValues_elem ms1 order _ Hro). exists timerID.
      unfold ms1, UpdatePendingTimers. cbn [pendingTimerInfoIDs].
      apply lookup_insert_eq. }
    rewrite Hnil in Hv. apply elem_of_nil in Hv as []. }
  destruct (timers (fold_left loadOne vs tb0)) as [| td0 rest] eqn:Hts;
    [exfalso; exact (load_nonempty vs tb0 Hne Hts) |].
  destruct (load_head vs tb0 td0 rest eq_refl Hnd Hts)
    as (v0 & Hv0 & Hfrom & Hlook & Hmin).
  apply (rangeValues_elem ms1 order v0 Hro) in Hv0 as [k0 Hk0].
  exists k0, v0.
  assert (forall k v, pendingTimerInfoIDs ms1 !! k = Some v ->
                      stampOfTimer v0 <= stampOfTimer v) as Hmin'.
  { intros k v Hk. apply Hmin. apply (rangeValues_elem ms1 order v Hro). eauto. }
  destruct (taskCreated v0) eqn:Hc.
  - rewrite (firstTimer_created _ td0 rest Hts)
      by (rewrite (loadedFrom_TaskCreated _ _ Hfrom); exact Hc).
    eexists. split; [exact Hk0 |]. split; [exact Hmin' |].
    left. split; reflexivity.
  - rewrite (firstTimer_new _ td0 rest v0 Hts Hfrom)
      by (rewrite (loadedFrom_TaskCreated _ _ Hfrom); exact Hc).
    cbn [timers pendingUserTimers]. rewrite Hts, Hlook.
    replace (TimerInfo.TimerID (withTaskID v0 _)) with k0
      by (symmetry; exact (Hagree1 _ _ Hk0)).
    eexists. split; [exact Hk0 |]. split; [exact Hmin' |].
    right. split; [reflexivity |]. eexists. split; [| reflexivity].
    apply ConstructTimerKey_nonneg.
Qed.

End AddUserTimerStep.

(** ** Runs of AddUserTimer calls *)

Lemma wrap64_small v : MinInt64 <= v <= MaxInt64 -> wrap64 v = v.
Proof.
  unfold MinInt64, MaxInt64, wrap64. intros Hv.
  rewrite Z.mod_small by lia. lia.
Qed.

Lemma timeStampOf_lt_inv e1 e2 :
  0 <= e1 <= MaxInt64 -> 0 <= e2 <= MaxInt64 ->
  timeStampOf e1 < timeStampOf e2 -> e1 < e2.
Proof.
  intros H1 H2 Hlt. destruct (Z.lt_ge_cases e1 e2) as [? | Hge]; [assumption |].
  pose proof (timeStampOf_mono e2 e1 ltac:(lia) Hge ltac:(lia)). lia.
Qed.

Lemma stampOfTimer_expiry v :
  0 <= TimerInfo.ExpiryTime v <= MaxInt64 ->
  stampOfTimer v = timeStampOf (TimerInfo.ExpiryTime v).
Proof.
  intros Hv. unfold stampOfTimer, UnixNano. rewrite wrap64_small; [reflexivity |].
  unfold MinInt64, MaxInt64 in *. lia.
Qed.

Lemma taskCreated_TaskID ti :
  taskCreated ti = true <-> TimerInfo.TaskID ti <> emptyTimerID.
Proof.
  unfold taskCreated. rewrite negb_true_iff. apply Z.eqb_neq.
Qed.

Lemma spacedCalls_prefix hist calls :
  spacedCalls (hist ++ calls) -> spacedCalls hist.
Proof.
  intros (Hids & Hall & Hstamps & Hranges).
  rewrite fmap_app in Hids. rewrite fmap_app in Hstamps.
  apply NoDup_app in Hids as (Hids & _ & _).
  apply NoDup_app in Hstamps as (Hstamps & _ & _).
  apply Forall_app in Hall as [Hall _].
  repeat split; try assumption.
  intros i c Hi. pose proof (lookup_lt_Some _ _ _ Hi) as Hlt.
  rewrite (Hranges i c) by (apply lookup_app_l_Some; exact Hi).
  rewrite take_app_le by lia. reflexivity.
Qed.

(** In a run of spaced calls two calls of one bucket are the same call. *)
Lemma spacedCalls_stamp_inj calls i1 i2 c1 c2 :
  spacedCalls calls ->
  calls !! i1 = Some c1 -> calls !! i2 = Some c2 ->
  timeStampOf (callExpiry c1) = timeStampOf (callExpiry c2) -> i1 = i2.
Proof.
  intros (_ & _ & Hstamps & _) H1 H2 Heq.
  eapply (NoDup_lookup _ i1 i2 _ Hstamps); rewrite list_lookup_fmap.
  - rewrite H1. reflexivity.
  - rewrite H2. cbn. rewrite Heq. reflexivity.
Qed.

Lemma spacedCalls_id_inj calls i1 i2 c1 c2 :
  spacedCalls calls ->
  calls !! i1 = Some c1 -> calls !! i2 = Some c2 ->
  callTimerID c1 = callTimerID c2 -> i1 = i2.
Proof.
  intros (Hids & _) H1 H2 Heq.
  eapply (NoDup_lookup _ i1 i2 _ Hids); rewrite list_lookup_fmap.
  - rewrite H1. reflexivity.
  - rewrite H2. cbn. rewrite Heq. reflexivity.
Qed.

Lemma spacedCalls_range calls i c :
  spacedCalls calls -> calls !! i = Some c ->
  0 <= callFireTimeout c /\ 0 <= callExpiry c <= MaxInt64.
Proof.
  intros (_ & Hall & _) Hi. rewrite Forall_lookup in Hall. exact (Hall i c Hi).
Qed.

(** Between two calls of a run the buckets order the expiries. *)
Lemma spacedCalls_stamp_le calls i1 i2 c1 c2 :
  spacedCalls calls ->
  calls !! i1 = Some c1 -> calls !! i2 = Some c2 -> i1 <> i2 ->
  timeStampOf (callExpiry c1) <= timeStampOf (callExpiry c2) ->
  callExpiry c1 < callExpiry c2.
Proof.
  intros Hsp H1 H2 Hne Hle.
  destruct (spacedCalls_range _ _ _ Hsp H1) as [_ Hr1].
  destruct (spacedCalls_range _ _ _ Hsp H2) as [_ Hr2].
  apply timeStampOf_lt_inv; try assumption.
  destruct (Z.eq_dec (timeStampOf (callExpiry c1)) (timeStampOf (callExpiry c2)))
    as [Heq | Hneq]; [| lia].
  exfalso. apply Hne. eapply spacedCalls_stamp_inj; eassumption.
Qed.

Section Runs.
Context {G : Type} {gen : SequenceNumberGenerator G}.

Lemma recorded_step (tb : timerBuilder G) hist c ms :
  spacedCalls (hist ++ [c]) -> timersRecorded hist ms ->
  exists r tb' ms',
    AddUserTimer (callNow c) (callOrder c) tb (callTimerID c)
                 (callFireTimeout c) (callStartedID c) ms
      = Some (r, tb', ms') /\
    succeeded r /\ timersRecorded (hist ++ [c]) ms'.
Proof.
  intros Hsp (Hdom & Hent).
  assert ((hist ++ [c]) !! length hist = Some c) as HcS
    by (apply lookup_snoc_Some; right; split; reflexivity).
  assert (forall i c', hist !! i = Some c' -> (hist ++ [c]) !! i = Some c')
    as Hhist by (intros i c' Hi; apply lookup_app_l_Some; exact Hi).
  destruct (spacedCalls_range _ _ _ Hsp HcS) as [Hfire Hexp].
  assert (pendingTimerInfoIDs ms !! callTimerID c = None) as Hfresh.
  { destruct (pendingTimerInfoIDs ms !! callTimerID c) as [v |] eqn:Hv;
      [| reflexivity].
    destruct (Hdom _ _ Hv) as (i & c' & Hi & Hid).
    pose proof (spacedCalls_id_inj _ _ _ _ _ Hsp (Hhist _ _ Hi) HcS Hid) as ->.
    apply lookup_lt_Some in Hi. lia. }
  assert (timerKeysAgree ms) as Hagree.
  { intros k v Hk. destruct (Hdom _ _ Hk) as (i & c' & Hi & <-).
    destruct (Hent _ _ Hi) as (ti & Hti & Hid & _). congruence. }
  pose proof (AddUserTimer_step (callNow c) (callOrder c) tb (callTimerID c)
                (callFireTimeout c) (callStartedID c) ms Hfire Hfresh Hagree)
    as Hstep.
  cbn zeta in Hstep. fold (callExpiry c) in Hstep.
  set (new := {| TimerInfo.TimerID := callTimerID c;
                 TimerInfo.ExpiryTime := callExpiry c;
                 TimerInfo.StartedID := callStartedID c;
                 TimerInfo.TaskID := emptyTimerID |}) in *.
  set (ms1 := UpdatePendingTimers ms (callTimerID c) new) in *.
  assert (forall i c', (hist ++ [c]) !! i = Some c' ->
            exists v, pendingTimerInfoIDs ms1 !! callTimerID c' = Some v /\
                      TimerInfo.TimerID v = callTimerID c' /\
                      TimerInfo.ExpiryTime v = callExpiry c' /\
                      (taskCreated v = true <->
                       (i < length hist)%nat /\
                       earliestWhenAdded (hist ++ [c]) i c')) as Hent1.
  { intros i c' Hi. pose proof Hi as HiS.
    apply lookup_snoc_Some in Hi as [[Hlt Hi] | [-> <-]].
    - destruct (Hent i c' Hi) as (ti & Hti & Hid & Hexp' & Htask).
      exists ti. split; [| split; [exact Hid | split; [exact Hexp' |]]].
      + unfold ms1, UpdatePendingTimers. cbn [pendingTimerInfoIDs].
        rewrite lookup_insert_ne; [exact Hti |].
        intros Heq.
        pose proof (spacedCalls_id_inj _ _ _ _ _ Hsp HcS HiS Heq). lia.
      + rewrite Htask. unfold earliestWhenAdded. split.
        * intros He. split; [exact Hlt |]. intros j c'' Hj Hjc.
          apply (He j c'' Hj). rewrite lookup_app_l in Hjc by lia. exact Hjc.
        * intros [_ He] j c'' Hj Hjc. apply (He j c'' Hj), Hhist, Hjc.
    - exists new. split; [| split; [reflexivity | split; [reflexivity |]]].
      + unfold ms1, UpdatePendingTimers. cbn [pendingTimerInfoIDs].
        apply lookup_insert_eq.
      + split; [discriminate | lia]. }
  assert (forall k v, pendingTimerInfoIDs ms1 !! k = Some v ->
            exists i c', (hist ++ [c]) !! i = Some c' /\ callTimerID c' = k)
    as Hdom1.
  { intros k v. unfold ms1, UpdatePendingTimers. cbn [pendingTimerInfoIDs].
    rewrite lookup_insert. case_decide as Hd.
    - intros _. exists (length hist), c. split; [exact HcS | exact Hd].
    - intros Hk. destruct (Hdom _ _ Hk) as (i & c' & Hi & Hid).
      exists i, c'. split; [apply Hhist, Hi | exact Hid]. }
  assert (forall i c' v, (hist ++ [c]) !! i = Some c' ->
            pendingTimerInfoIDs ms1 !! callTimerID c' = Some v ->
            stampOfTimer v = timeStampOf (callExpiry c')) as Hstamp.
  { intros i c' v Hi Hv. destruct (Hent1 i c' Hi) as (v' & Hv' & _ & Hexp' & _).
    assert (v' = v) as -> by congruence.
    rewrite stampOfTimer_expiry; rewrite Hexp'; [reflexivity |].
    apply (spacedCalls_range _ _ _ Hsp Hi). }
  assert (rangeOrder ms1 (callOrder c)) as Hro.
  { unfold rangeOrder. destruct Hsp as (Hids & _ & _ & Hranges).
    rewrite (Hranges _ _ HcS).
    rewrite take_ge by (rewrite length_app; cbn; lia).
    apply NoDup_Permutation;
      [exact Hids | apply NoDup_fst_map_to_list |].
    intros k. rewrite !list_elem_of_fmap. split.
    - intros (c' & -> & Hin). apply list_elem_of_lookup in Hin as [i Hi].
      destruct (Hent1 i c' Hi) as (v & Hv & _).
      exists (callTimerID c', v). split; [reflexivity |].
      apply elem_of_map_to_list. exact Hv.
    - intros ([k' v] & -> & Hin). apply elem_of_map_to_list in Hin.
      destruct (Hdom1 _ _ Hin) as (i & c' & Hi & Hid).
      exists c'. split; [symmetry; exact Hid |].
      apply list_elem_of_lookup. eauto. }
  assert (distinctStamps ms1) as Hdist.
  { intros k1 k2 v1 v2 H1 H2 Heq.
    destruct (Hdom1 _ _ H1) as (i1 & c1 & Hi1 & <-).
    destruct (Hdom1 _ _ H2) as (i2 & c2 & Hi2 & <-).
    rewrite (Hstamp _ _ _ Hi1 H1), (Hstamp _ _ _ Hi2 H2) in Heq.
    pose proof (spacedCalls_stamp_inj _ _ _ _ _ Hsp Hi1 Hi2 Heq) as ->.
    congruence. }
  destruct (Hstep Hro Hdist) as (k0 & v0 & tb' & Hk0 & Hmin & Hcases).
  destruct (Hdom1 _ _ Hk0) as (i0 & c0 & Hi0 & Hid0). subst k0.
  assert (forall j c', (hist ++ [c]) !! j = Some c' -> j <> i0 ->
                       callExpiry c0 < callExpiry c') as Hfirst.
  { intros j c' Hj Hne.
    apply (spacedCalls_stamp_le _ i0 j _ _ Hsp Hi0 Hj); [congruence |].
    destruct (Hent1 j c' Hj) as (v & Hv & _).
    rewrite <- (Hstamp _ _ _ Hi0 Hk0), <- (Hstamp _ _ _ Hj Hv).
    apply (Hmin _ _ Hv). }
  destruct (Hent1 i0 c0 Hi0) as (v0_ & Hv0_ & Hid0 & Hexp0 & _).
  assert (v0_ = v0) as -> by congruence. clear Hv0_.
  assert (exists r ms' v0',
            AddUserTimer (callNow c) (callOrder c) tb (callTimerID c)
                         (callFireTimeout c) (callStartedID c) ms
              = Some (r, tb', ms') /\
            succeeded r /\
            pendingTimerInfoIDs ms' !! callTimerID c0 = Some v0' /\
            TimerInfo.TimerID v0' = callTimerID c0 /\
            TimerInfo.ExpiryTime v0' = callExpiry c0 /\
            taskCreated v0' = true /\
            forall k, k <> callTimerID c0 ->
                      pendingTimerInfoIDs ms' !! k = pendingTimerInfoIDs ms1 !! k)
    as (r & ms' & v0' & Hrun & Hok & Hk0' & Hid0' & Hexp0' & Htask0 & Hother).
  { destruct Hcases as [[Hc Hrun] | [Hc (task & Hid & Hrun)]].
    - exists (None, None), ms1, v0. repeat split; assumption || reflexivity.
    - eexists _, _, (withTaskID v0 (GetTaskID task)).
      split; [exact Hrun |]. split; [reflexivity |].
      unfold UpdatePendingTimers. cbn [pendingTimerInfoIDs].
      split; [apply lookup_insert_eq |].
      split; [exact Hid0 |]. split; [exact Hexp0 |]. split.
      + apply taskCreated_TaskID. cbn. unfold emptyTimerID. lia.
      + intros k Hne. apply lookup_insert_ne. congruence. }
  exists r, tb', ms'. split; [exact Hrun |]. split; [exact Hok |]. split.
  - intros k v Hk. destruct (decide (k = callTimerID c0)) as [-> | Hne].
    + exists i0, c0. split; [exact Hi0 | reflexivity].
    + rewrite (Hother k Hne) in Hk. exact (Hdom1 _ _ Hk).
  - intros i c' Hi. destruct (decide (callTimerID c' = callTimerID c0))
      as [Heq | Hne].
    + pose proof (spacedCalls_id_inj _ _ _ _ _ Hsp Hi Hi0 Heq) as ->.
      assert (c' = c0) as -> by congruence.
      exists v0'. split; [exact Hk0' |]. split; [exact Hid0' |].
      split; [exact Hexp0' |]. split; [| intros _; exact Htask0].
      intros _ j c'' Hj Hjc. apply (Hfirst j c'' Hjc). lia.
    + rewrite (Hother _ Hne).
      destruct (Hent1 i c' Hi) as (v & Hv & Hid & Hexp' & Htask).
      exists v. split; [exact Hv |]. split; [exact Hid |].
      split; [exact Hexp' |]. rewrite Htask. split; [intros [_ He]; exact He |].
      intros He. split; [| exact He].
      pose proof (lookup_lt_Some _ _ _ Hi) as Hlen.
      pose proof (lookup_lt_Some _ _ _ Hi0) as Hlen0.
      rewrite length_app in Hlen, Hlen0. cbn in Hlen, Hlen0.
      destruct (decide (i < length hist)%nat) as [Hlt | Hge]; [exact Hlt |].
      assert (i = length hist) as -> by lia.
      assert (i0 <> length hist) as Hne0 by (intros ->; congruence).
      pose proof (He i0 c0 ltac:(lia) Hi0) as Hlt1.
      pose proof (Hfirst _ _ Hi (not_eq_sym Hne0)) as Hlt2. lia.
Qed.

Lemma recorded_run calls : forall hist (tb : timerBuilder G) ms,
  spacedCalls (hist ++ calls) -> timersRecorded hist ms ->
  exists results tb' ms',
    addUserTimers tb ms calls = Some (results, tb', ms') /\
    Forall succeeded results /\
    timersRecorded (hist ++ calls) ms'.
Proof.
  induction calls as [| c calls IH]; intros hist tb ms Hsp Hrec.
  - exists [], tb, ms. rewrite app_nil_r. repeat split; [constructor | apply Hrec..].
  - rewrite cons_middle, app_assoc in Hsp |- *.
    destruct (recorded_step tb hist c ms (spacedCalls_prefix _ _ Hsp) Hrec)
      as (r & tb1 & ms1 & Hrun1 & Hok1 & Hrec1).
    destruct (IH (hist ++ [c]) tb1 ms1 Hsp Hrec1)
      as (rs & tb' & ms' & Hrun & Hok & Hrec').
    exists (r :: rs), tb', ms'. cbn [addUserTimers]. rewrite Hrun1, Hrun.
    split; [reflexivity |]. split; [constructor; assumption | exact Hrec'].
Qed.

Lemma timersRecorded_empty : timersRecorded [] newMutableStateBuilder.
Proof.
  split.
  - intros k v Hk. cbn in Hk. rewrite lookup_empty in Hk. discriminate.
  - intros i c Hi. rewrite lookup_nil in Hi. discriminate.
Qed.

(** C1 (as amended).  Run any number of [AddUserTimer] calls on one builder
    and one initially empty snapshot, with distinct timer IDs, timeouts that
    are not negative and expiries in pairwise distinct time stamp buckets.
    After the first [n] calls, for every [n]: every call has succeeded; each
    timer is pending with the expiry of its call; a pending TimerInfo has a
    persisted task (its TaskID is not the empty sentinel) exactly when its
    expiry was before that of every timer added earlier; in particular the
    pending timer with the smallest expiry has a task.  A task given to a
    timer is not withdrawn when an earlier timer is added later. *)
Theorem AddUserTimer_earliest_materialized (calls : list userTimerCall)
    (tb : timerBuilder G) (n : nat) :
  spacedCalls calls ->
  exists results tb' ms',
    addUserTimers tb newMutableStateBuilder (take n calls)
      = Some (results, tb', ms') /\
    Forall succeeded results /\
    (forall i c, take n calls !! i = Some c ->
       exists ti,
         pendingTimerInfoIDs ms' !! callTimerID c = Some ti /\
         TimerInfo.ExpiryTime ti = callExpiry c /\
         (TimerInfo.TaskID ti <> emptyTimerID <->
          earliestWhenAdded calls i c)) /\
    (forall i c, take n calls !! i = Some c ->
       (forall c', c' ∈ take n calls -> callExpiry c <= callExpiry c') ->
       exists ti,
         pendingTimerInfoIDs ms' !! callTimerID c = Some ti /\
         TimerInfo.TaskID ti <> emptyTimerID).
Proof.
  intros Hsp. rewrite <- (take_drop n calls) in Hsp.
  apply spacedCalls_prefix in Hsp.
  destruct (recorded_run (take n calls) [] tb newMutableStateBuilder Hsp
                         timersRecorded_empty)
    as (rs & tb' & ms' & Hrun & Hok & _ & Hent).
  cbn [app] in Hent.
  assert (forall i c, take n calls !! i = Some c ->
            earliestWhenAdded (take n calls) i c <-> earliestWhenAdded calls i c)
    as Hsame.
  { intros i c Hi. apply lookup_take_Some in Hi as [Hi Hlt].
    unfold earliestWhenAdded. split; intros He j c' Hj Hjc.
    - apply (He j c' Hj). apply lookup_take_Some. split; [exact Hjc | lia].
    - apply (He j c' Hj). apply lookup_take_Some in Hjc as [Hjc _]. exact Hjc. }
  exists rs, tb', ms'. split; [exact Hrun |]. split; [exact Hok |]. split.
  - intros i c Hi. destruct (Hent i c Hi) as (ti & Hti & _ & Hexp & Htask).
    exists ti. split; [exact Hti |]. split; [exact Hexp |].
    rewrite <- taskCreated_TaskID, Htask. apply Hsame, Hi.
  - intros i c Hi Hleast. destruct (Hent i c Hi) as (ti & Hti & _ & _ & Htask).
    exists ti. split; [exact Hti |]. apply taskCreated_TaskID, Htask.
    intros j c' Hj Hjc.
    apply (spacedCalls_stamp_le _ i j _ _ Hsp Hi Hjc); [lia |].
    pose proof (spacedCalls_range _ _ _ Hsp Hi) as [_ Hr].
    pose proof (spacedCalls_range _ _ _ Hsp Hjc) as [_ Hr'].
    apply timeStampOf_mono; [lia | | lia].
    apply Hleast. eapply list_elem_of_lookup_2. exact Hjc.
Qed.

End Runs.

(** ** The run of the example calls *)

Lemma threeCalls_spaced : spacedCalls threeCalls.
Proof.
  split; [| split; [| split]].
  - compute_done.
  - unfold threeCalls. repeat constructor; vm_compute; congruence.
  - compute_done.
  - intros i c Hi. destruct i as [| [| [| i]]]; cbn in Hi;
      [injection Hi as <- .. | discriminate]; cbn.
    + reflexivity.
    + apply perm_swap.
    + constructor. apply perm_swap.
Qed.

(** The theorem of C1 at [threeCalls]. *)
Lemma AddUserTimer_earliest_materialized_witness :
  spacedCalls threeCalls /\
  exists results tb' ms',
    addUserTimers (newTimerBuilder shard0) newMutableStateBuilder
                  (take 3 threeCalls)
      = Some (results, tb', ms') /\
    Forall succeeded results /\
    (forall i c, take 3 threeCalls !! i = Some c ->
       exists ti,
         pendingTimerInfoIDs ms' !! callTimerID c = Some ti /\
         TimerInfo.ExpiryTime ti = callExpiry c /\
         (TimerInfo.TaskID ti <> emptyTimerID <->
          earliestWhenAdded threeCalls i c)) /\
    (forall i c, take 3 threeCalls !! i = Some c ->
       (forall c', c' ∈ take 3 threeCalls -> callExpiry c <= callExpiry c') ->
       exists ti,
         pendingTimerInfoIDs ms' !! callTimerID c = Some ti /\
         TimerInfo.TaskID ti <> emptyTimerID).
Proof.
  split; [exact threeCalls_spaced |].
  exact (AddUserTimer_earliest_materialized threeCalls (newTimerBuilder shard0)
           3%nat threeCalls_spaced).
Defined.


(** C1, as the spec words it, fails: with timer t1 (100 s) added before timer
    t2 (50 s), both calls create a task, so two pending TimerInfos have a
    persisted task. *)
Lemma earliest_only_counterexample :
  NoDup (callTimerID <$> decreasingCalls) /\
  NoDup (callExpiry <$> decreasingCalls) /\
  rangesFollow decreasingCalls /\
  ~ earliestOnly (newTimerBuilder shard0) decreasingCalls.
Proof.
  split; [compute_done |].
  split; [compute_done |].
  split.
  - intros i c Hi. destruct i as [| [| i]]; cbn in Hi;
      [injection Hi as <- .. | discriminate]; cbn; reflexivity.
  - intros Hearliest.
    destruct (addUserTimers (newTimerBuilder shard0) newMutableStateBuilder
                            decreasingCalls)
      as [[[results tb'] ms'] |] eqn:Hrun; [| vm_compute in Hrun; discriminate].
    destruct (Hearliest results tb' ms' Hrun) as [Hone _].
    + vm_compute in Hrun. injection Hrun as <- _ _.
      repeat constructor.
    + vm_compute in Hrun. injection Hrun as _ _ <-.
      vm_compute in Hone. discriminate.
Qed.



(** Inside one time stamp bucket the index orders the timers by the local
    sequence numbers, which follow the order of the map range: whether the
    timer of the smallest expiry gets a task depends on that order. *)
Example sameBucket_follows_rangeOrder :
  (exists results tb' ms' t1 t2,
     addUserTimers (newTimerBuilder shard0) newMutableStateBuilder
                   (sameBucketCalls ["t1"%string; "t2"%string])
       = Some (results, tb', ms') /\
     pendingTimerInfoIDs ms' !! "t1"%string = Some t1 /\
     pendingTimerInfoIDs ms' !! "t2"%string = Some t2 /\
     TimerInfo.TaskID t1 <> emptyTimerID /\
     TimerInfo.TaskID t2 = emptyTimerID) /\
  (exists results tb' ms' t1 t2,
     addUserTimers (newTimerBuilder shard0) newMutableStateBuilder
                   (sameBucketCalls ["t2"%string; "t1"%string])
       = Some (results, tb', ms') /\
     pendingTimerInfoIDs ms' !! "t1"%string = Some t1 /\
     pendingTimerInfoIDs ms' !! "t2"%string = Some t2 /\
     TimerInfo.TaskID t1 <> emptyTimerID /\
     TimerInfo.TaskID t2 <> emptyTimerID).
Proof.
  split; vm_compute; eexists _, _, _, _, _;
    (split; [reflexivity |]); (split; [reflexivity |]);
    (split; [reflexivity |]); split; congruence.
Qed.

(** ** The laws of the sequence key codec *)

(** C2 (as amended).  [DeconstructTimerKey (ConstructTimerKey e s)] is
    [(e, s)] exactly for the inputs within the field bounds: an expiry in the
    time stamp field (an [int64] that is not negative and whose low 26 bits
    are zero) and a sequence number in the 26-bit field. *)
Theorem DeconstructTimerKey_roundtrip (e s : Z) :
  DeconstructTimerKey (ConstructTimerKey e s) = (e, s) <->
  inTimeStampField e /\ inSeqNumField s.
Proof.
  rewrite DeconstructTimerKey_ConstructTimerKey.
  unfold inTimeStampField, inSeqNumField.
  change (2 ^ TimerQueueSeqNumBits) with (2 ^ 26).
  pose proof (timeStampOf_bounds e) as [Hb Hm].
  pose proof (Z.mod_pos_bound s (2 ^ 26) ltac:(lia)) as Hs.
  split.
  - intros [= He Hs']. rewrite He in Hb, Hm. lia.
  - intros [He Hs']. rewrite (timeStampOf_field e He).
    rewrite Z.mod_small by lia. reflexivity.
Qed.

(** C2, as stated for every [int64] expiry, fails: the low 26 bits of the
    expiry 1 are masked out. *)
Lemma DeconstructTimerKey_roundtrip_counterexample :
  int64 1 /\ inSeqNumField 0 /\
  DeconstructTimerKey (ConstructTimerKey 1 0) <> (1, 0).
Proof.
  split; [unfold int64, MinInt64, MaxInt64; lia |].
  split; [unfold inSeqNumField, TimerQueueSeqNumBits; lia |].
  vm_compute. discriminate.
Qed.

(** C3 (as amended).  For sequence numbers within the 26-bit field, the order
    of the keys is the lexicographic order of (time stamp bucket of the
    expiry, sequence number).  Hence [t1 < t2] orders the keys whenever the
    two expiries are [int64]s that are not negative and lie in different
    buckets, in particular when both lie in the time stamp field. *)
Theorem ConstructTimerKey_order (t1 t2 seq1 seq2 : Z) :
  inSeqNumField seq1 -> inSeqNumField seq2 ->
  (ConstructTimerKey t1 seq1 < ConstructTimerKey t2 seq2 <->
   timeStampOf t1 < timeStampOf t2 \/
   (timeStampOf t1 = timeStampOf t2 /\ seq1 < seq2)) /\
  (0 <= t1 -> t1 < t2 -> t2 <= MaxInt64 ->
   timeStampOf t1 <> timeStampOf t2 ->
   ConstructTimerKey t1 seq1 < ConstructTimerKey t2 seq2) /\
  (inTimeStampField t1 -> inTimeStampField t2 -> t1 < t2 ->
   ConstructTimerKey t1 seq1 < ConstructTimerKey t2 seq2).
Proof.
  unfold inSeqNumField. change (2 ^ TimerQueueSeqNumBits) with (2 ^ 26).
  intros Hs1 Hs2.
  assert (ConstructTimerKey t1 seq1 < ConstructTimerKey t2 seq2 <->
          timeStampOf t1 < timeStampOf t2 \/
          (timeStampOf t1 = timeStampOf t2 /\ seq1 < seq2)) as Hlex.
  { rewrite !ConstructTimerKey_arith, !Z.mod_small by lia.
    pose proof (timeStampOf_bounds t1) as [_ Hm1].
    pose proof (timeStampOf_bounds t2) as [_ Hm2].
    apply Z.mod_divide in Hm1, Hm2; try lia.
    destruct Hm1 as [q1 Hq1], Hm2 as [q2 Hq2]. lia. }
  split; [exact Hlex |]. split.
  - intros H1 Hlt H2 Hne. apply Hlex. left.
    pose proof (timeStampOf_mono t1 t2 H1 ltac:(lia) H2). lia.
  - intros Hf1 Hf2 Hlt. apply Hlex. left.
    rewrite (timeStampOf_field _ Hf1), (timeStampOf_field _ Hf2). exact Hlt.
Qed.

(** The theorem of C3 at two expiries one bucket apart. *)
Lemma ConstructTimerKey_order_witness :
  inSeqNumField 7 /\ inSeqNumField 3 /\
  ConstructTimerKey (2 ^ 26) 7 < ConstructTimerKey (2 ^ 27) 3.
Proof.
  assert (inSeqNumField 7) as H7 by (unfold inSeqNumField, TimerQueueSeqNumBits; lia).
  assert (inSeqNumField 3) as H3 by (unfold inSeqNumField, TimerQueueSeqNumBits; lia).
  split; [exact H7 |]. split; [exact H3 |].
  destruct (ConstructTimerKey_order (2 ^ 26) (2 ^ 27) 7 3 H7 H3)
    as (_ & Hordered & _).
  apply Hordered.
  - lia.
  - lia.
  - unfold MaxInt64. lia.
  - vm_compute. discriminate.
Defined.

(** C3, as stated for all [t1 < t2], fails: the expiries 0 and 1 share a
    bucket, where the sequence numbers decide. *)
Lemma ConstructTimerKey_order_counterexample :
  0 < 1 /\ inSeqNumField 1 /\ inSeqNumField 0 /\
  ~ ConstructTimerKey 0 1 < ConstructTimerKey 1 0.
Proof.
  split; [lia |].
  split; [unfold inSeqNumField, TimerQueueSeqNumBits; lia |].
  split; [unfold inSeqNumField, TimerQueueSeqNumBits; lia |].
  vm_compute. discriminate.
Qed.

(** C10.  [IsTimerExpired] holds exactly when the time stamp field of the
    candidate's SequenceID is at most the reference time; a timer whose
    expiry field equals the reference time is expired. *)
Theorem IsTimerExpired_inclusive (td : timerDetails.t) (referenceTime : Z) :
  (IsTimerExpired td referenceTime = true <->
   fst (DeconstructTimerKey (timerDetails.SequenceID td)) <= referenceTime) /\
  IsTimerExpired td
    (fst (DeconstructTimerKey (timerDetails.SequenceID td))) = true.
Proof.
  unfold IsTimerExpired.
  destruct (DeconstructTimerKey (timerDetails.SequenceID td)) as [expiry seqNum].
  cbn [fst]. split; [apply Z.leb_le | apply Z.leb_refl].
Qed.

(** ** The pending timer index and the activity timeouts *)

Section IndexAndActivities.
Context {G : Type} {gen : SequenceNumberGenerator G}.

Lemma AddActivityTimeoutTask_fires (now : Z) (tb : timerBuilder G)
    (scheduleID : Z) (timeoutType : TimeoutType) (fireTimeout : Z) :
  0 < fireTimeout ->
  AddActivityTimeoutTask now tb scheduleID timeoutType fireTimeout =
    (Some {| ActivityTimeoutTask.TaskID :=
               ConstructTimerKey
                 (AddSecondsToBaseTime (UnixNano now) fireTimeout)
                 (fst (NextSeq (seqNumGen tb)));
             ActivityTimeoutTask.TimeoutType := timeoutType;
             ActivityTimeoutTask.EventID := scheduleID |},
     mkTimerBuilder (timers tb) (pendingUserTimers tb)
                    (snd (NextSeq (seqNumGen tb))) (localSeqNumGen tb)).
Proof.
  intros Hpos. unfold AddActivityTimeoutTask, createActivityTimeoutTask.
  destruct (NextSeq (seqNumGen tb)) as [n g].
  destruct (Z.leb_spec fireTimeout 0) as [Hle | Hgt]; [lia | reflexivity].
Qed.

(** C9.  On a list of timers sorted ascending by SequenceID, [insertTimer]
    leaves the list sorted with the candidate inserted (the other timers
    keep their order), and returns true exactly when the candidate is at the
    front of the list, that is when no timer of the list has a smaller
    SequenceID. *)
Theorem insertTimer_sorted (tb : timerBuilder G) (td : timerDetails.t) :
  Sorted seqLe (timers tb) ->
  let '(isFirst, tb') := insertTimer tb td in
  Sorted seqLe (timers tb') /\
  timers tb' ≡ₚ td :: timers tb /\
  (exists i, timers tb' = take i (timers tb) ++ td :: drop i (timers tb)) /\
  (isFirst = true <-> head (timers tb') = Some td) /\
  (isFirst = true <->
   Forall (fun t => timerDetails.SequenceID td <= timerDetails.SequenceID t)
          (timers tb)) /\
  pendingUserTimers tb' = pendingUserTimers tb /\
  seqNumGen tb' = seqNumGen tb /\
  localSeqNumGen tb' = localSeqNumGen tb.
Proof.
  intros Hsorted. apply Sorted_StronglySorted in Hsorted; [| apply _].
  rewrite insertTimer_eq. cbn [timers pendingUserTimers seqNumGen localSeqNumGen].
  pose proof (insertAt_spec (timers tb) td Hsorted) as (Hlen & Hlow & Hhigh).
  pose proof (insertAt_front (timers tb) td Hsorted) as Hfront.
  split; [apply StronglySorted_Sorted, insertAt_sorted, Hsorted |].
  split; [apply insertAt_perm |].
  split; [eexists; reflexivity |].
  split; [| split; [| repeat split]].
  - destruct (insertAt (timers tb) td) as [| i] eqn:Hi.
    + rewrite take_0. cbn. split; reflexivity.
    + cbn [Nat.eqb]. split; [discriminate |].
      destruct (timers tb) as [| t ts]; [cbn in Hlen; lia |].
      cbn. intros [= ->]. cbn in Hlow. apply Forall_cons in Hlow as [Hlt _]. lia.
  - rewrite <- Hfront. apply Nat.eqb_eq.
Qed.

(** C8.  [AddActivityTimeoutTask] returns no task, and leaves the builder as
    it is, when the timeout is zero or negative, and returns a new
    ActivityTimeoutTask for the schedule ID and the timeout kind
    otherwise. *)
Theorem AddActivityTimeoutTask_suppression (now : Z) (tb : timerBuilder G)
    (scheduleID : Z) (timeoutType : TimeoutType) (fireTimeout : Z) :
  (fireTimeout <= 0 ->
   AddActivityTimeoutTask now tb scheduleID timeoutType fireTimeout = (None, tb)) /\
  (0 < fireTimeout ->
   AddActivityTimeoutTask now tb scheduleID timeoutType fireTimeout =
     (Some {| ActivityTimeoutTask.TaskID :=
                ConstructTimerKey
                  (AddSecondsToBaseTime (UnixNano now) fireTimeout)
                  (fst (NextSeq (seqNumGen tb)));
              ActivityTimeoutTask.TimeoutType := timeoutType;
              ActivityTimeoutTask.EventID := scheduleID |},
      mkTimerBuilder (timers tb) (pendingUserTimers tb)
                     (snd (NextSeq (seqNumGen tb))) (localSeqNumGen tb))) /\
  (fst (AddActivityTimeoutTask now tb scheduleID timeoutType fireTimeout) = None
   <-> fireTimeout <= 0).
Proof.
  split; [| split].
  - intros Hle. unfold AddActivityTimeoutTask.
    destruct (Z.leb_spec fireTimeout 0) as [_ | Hgt]; [reflexivity | lia].
  - apply AddActivityTimeoutTask_fires.
  - destruct (Z.le_gt_cases fireTimeout 0) as [Hle | Hgt].
    + unfold AddActivityTimeoutTask.
      destruct (Z.leb_spec fireTimeout 0) as [_ | Hgt]; [| lia].
      split; [intros _; exact Hle | reflexivity].
    + rewrite AddActivityTimeoutTask_fires by lia. cbn [fst].
      split; [discriminate | lia].
Qed.

(** C7.  [AddScheduleToStartActivityTimeout] records under the schedule ID an
    ActivityInfo in which each of the schedule-to-start, schedule-to-close
    and start-to-close timeouts that was configured zero or negative is
    replaced by the default of 10 seconds, the heartbeat timeout is passed
    through, and returns a new schedule-to-start ActivityTimeoutTask. *)
Theorem AddScheduleToStartActivityTimeout_defaults (emptyEventID now : Z)
    (tb : timerBuilder G) (scheduleID : Z)
    (scheduleEvent : ActivityTaskScheduledEventAttributes.t)
    (msBuilder : mutableStateBuilder) :
  let resolve (configured default : Z) :=
    if configured <=? 0 then default else configured in
  let '(t, tb', msBuilder') :=
    AddScheduleToStartActivityTimeout emptyEventID now tb scheduleID
                                      scheduleEvent msBuilder in
  (exists ai,
     pendingActivityInfoIDs msBuilder' !! scheduleID = Some ai /\
     ActivityInfo.ScheduleID ai = scheduleID /\
     ActivityInfo.ActivityID ai =
       ActivityTaskScheduledEventAttributes.ActivityId scheduleEvent /\
     ActivityInfo.ScheduleToStartTimeout ai =
       resolve (ActivityTaskScheduledEventAttributes.ScheduleToStartTimeoutSeconds
                  scheduleEvent) 10 /\
     ActivityInfo.ScheduleToCloseTimeout ai =
       resolve (ActivityTaskScheduledEventAttributes.ScheduleToCloseTimeoutSeconds
                  scheduleEvent) 10 /\
     ActivityInfo.StartToCloseTimeout ai =
       resolve (ActivityTaskScheduledEventAttributes.StartToCloseTimeoutSeconds
                  scheduleEvent) 10 /\
     ActivityInfo.HeartbeatTimeout ai =
       ActivityTaskScheduledEventAttributes.HeartbeatTimeoutSeconds scheduleEvent /\
     0 < ActivityInfo.ScheduleToStartTimeout ai /\
     0 < ActivityInfo.ScheduleToCloseTimeout ai /\
     0 < ActivityInfo.StartToCloseTimeout ai /\
     exists task,
       t = Some task /\
       ActivityTimeoutTask.TimeoutType task = TimeoutType_SCHEDULE_TO_START /\
       ActivityTimeoutTask.EventID task = scheduleID /\
       ActivityTimeoutTask.TaskID task =
         ConstructTimerKey
           (AddSecondsToBaseTime (UnixNano now)
                                 (ActivityInfo.ScheduleToStartTimeout ai))
           (fst (NextSeq (seqNumGen tb)))) /\
  (forall id, id <> scheduleID ->
     pendingActivityInfoIDs msBuilder' !! id
       = pendingActivityInfoIDs msBuilder !! id) /\
  pendingTimerInfoIDs msBuilder' = pendingTimerInfoIDs msBuilder.
Proof.
  intros resolve. unfold AddScheduleToStartActivityTimeout.
  set (s2s := if _ <=? 0 then DefaultScheduleToStartActivityTimeoutInSecs else _).
  set (s2c := if _ <=? 0 then DefaultScheduleToCloseActivityTimeoutInSecs else _).
  set (st2c := if _ <=? 0 then DefaultStartToCloseActivityTimeoutInSecs else _).
  assert (0 < s2s) as Hs2s
    by (subst s2s; unfold DefaultScheduleToStartActivityTimeoutInSecs;
        destruct (Z.leb_spec
          (ActivityTaskScheduledEventAttributes.ScheduleToStartTimeoutSeconds
             scheduleEvent) 0); lia).
  assert (0 < s2c) as Hs2c
    by (subst s2c; unfold DefaultScheduleToCloseActivityTimeoutInSecs;
        destruct (Z.leb_spec
          (ActivityTaskScheduledEventAttributes.ScheduleToCloseTimeoutSeconds
             scheduleEvent) 0); lia).
  assert (0 < st2c) as Hst2c
    by (subst st2c; unfold DefaultStartToCloseActivityTimeoutInSecs;
        destruct (Z.leb_spec
          (ActivityTaskScheduledEventAttributes.StartToCloseTimeoutSeconds
             scheduleEvent) 0); lia).
  rewrite (AddActivityTimeoutTask_fires now tb scheduleID
             TimeoutType_SCHEDULE_TO_START s2s Hs2s).
  unfold UpdatePendingActivity.
  cbn [pendingActivityInfoIDs pendingTimerInfoIDs].
  split; [| split; [| reflexivity]].
  - eexists. split; [apply lookup_insert_eq |].
    cbn. repeat split; try assumption. eexists. repeat split.
  - intros id Hne. apply lookup_insert_ne. congruence.
Qed.

End IndexAndActivities.


(** The theorem of C9 at a candidate that goes between two timers. *)
Lemma insertTimer_sorted_witness :
  Sorted seqLe (timers twoTimers) /\
  let '(isFirst, tb') := insertTimer twoTimers (indexedTimer 20) in
  Sorted seqLe (timers tb') /\
  timers tb' ≡ₚ indexedTimer 20 :: timers twoTimers /\
  (exists i, timers tb' = take i (timers twoTimers)
                            ++ indexedTimer 20 :: drop i (timers twoTimers)) /\
  (isFirst = true <-> head (timers tb') = Some (indexedTimer 20)) /\
  (isFirst = true <->
   Forall (fun t => timerDetails.SequenceID (indexedTimer 20)
                    <= timerDetails.SequenceID t)
          (timers twoTimers)) /\
  pendingUserTimers tb' = pendingUserTimers twoTimers /\
  seqNumGen tb' = seqNumGen twoTimers /\
  localSeqNumGen tb' = localSeqNumGen twoTimers.
Proof.
  assert (Sorted seqLe (timers twoTimers)) as Hsorted
    by (repeat constructor; unfold seqLe; cbn; lia).
  split; [exact Hsorted |].
  exact (insertTimer_sorted twoTimers (indexedTimer 20) Hsorted).
Defined.


(** ** The error contract of AddUserTimer *)

Section ErrorContract.
Context {G : Type} {gen : SequenceNumberGenerator G}.

(** Every entry of the loaded index has its TimerInfo in
    [pendingUserTimers], whatever the order of the range. *)
Lemma load_indexed (vs : list TimerInfo.t) (tb0 : timerBuilder G) :
  timers tb0 = [] ->
  forall td, td ∈ timers (fold_left loadOne vs tb0) ->
    is_Some (pendingUserTimers (fold_left loadOne vs tb0)
               !! timerDetails.SequenceID td).
Proof.
  intros Hnil. induction vs as [| v vs IH] using rev_ind; intros td.
  - cbn [fold_left]. rewrite Hnil. intros Hin. apply elem_of_nil in Hin as [].
  - rewrite fold_left_app. cbn [fold_left]. rewrite loadOne_eq. cbn zeta.
    cbn [timers pendingUserTimers]. rewrite insertAt_perm.
    intros Hin. rewrite lookup_insert. case_decide as Hd; [eauto |].
    apply elem_of_cons in Hin as [-> | Hin]; [contradiction | apply IH, Hin].
Qed.

Lemma firstTimer_cases (tb : timerBuilder G) :
  firstTimer tb = (None, tb) \/
  exists task td0 rest g,
    timers tb = td0 :: rest /\
    firstTimer tb =
      (Some task,
       mkTimerBuilder (timers tb) (pendingUserTimers tb) g (localSeqNumGen tb)).
Proof.
  unfold firstTimer. destruct (timers tb) as [| td0 rest] eqn:Hts; [left; reflexivity |].
  destruct (timerDetails.TaskCreated td0); cbn [negb]; [left; reflexivity |].
  unfold createNewTask, createUserTimerTask.
  destruct (DeconstructTimerKey (timerDetails.SequenceID td0)) as [expiry seqNum].
  destruct (timerDetails.TimerTask td0); try (left; reflexivity).
  destruct (NextSeq (seqNumGen tb)) as [n g]. right.
  eexists _, td0, rest, g. rewrite Hts. split; reflexivity.
Qed.

(** [AddUserTimer] returns: no index is out of range and no TimerInfo is
    missing, in whatever order the range visits the pending timers. *)
Lemma AddUserTimer_returns now order (tb : timerBuilder G) timerID fireTimeout
    startedID ms :
  0 <= fireTimeout ->
  pendingTimerInfoIDs ms !! timerID = None ->
  exists task tb' ms',
    AddUserTimer now order tb timerID fireTimeout startedID ms
      = Some ((task, None), tb', ms') /\
    is_Some (pendingTimerInfoIDs ms' !! timerID).
Proof.
  intros Hfire Hfresh. unfold AddUserTimer, isTimerRunning.
  destruct (Z.ltb_spec fireTimeout 0) as [? | _]; [lia |].
  rewrite Hfresh, LoadUserTimers_values.
  set (new := TimerInfo.mk timerID _ startedID emptyTimerID).
  set (ms1 := UpdatePendingTimers ms timerID new).
  set (tb0 := mkTimerBuilder [] ∅ (seqNumGen tb) (localSeqNumGen tb)).
  set (tb1 := fold_left loadOne (rangeValues ms1 order) tb0).
  assert (pendingTimerInfoIDs ms1 !! timerID = Some new) as Hnew
    by apply lookup_insert_eq.
  destruct (firstTimer_cases tb1) as [-> | (task & td0 & rest & g & Hts & ->)].
  - eexists _, _, _. split; [reflexivity | eauto].
  - cbn [timers pendingUserTimers]. rewrite Hts.
    destruct (load_indexed (rangeValues ms1 order) tb0 eq_refl td0) as [ti Hti].
    { fold tb1. rewrite Hts. left. }
    fold tb1 in Hti. rewrite Hti.
    eexists _, _, _. split; [reflexivity |].
    unfold UpdatePendingTimers at 1. cbn [pendingTimerInfoIDs].
    rewrite lookup_insert. case_decide; eauto.
Qed.

(** C6.  [AddUserTimer] returns an error, and no task, exactly when the
    timeout is negative (invalid argument) or the timer ID has a pending
    TimerInfo already (duplicate timer); the snapshot that is checked is the
    one the call received, and a failed call leaves it and the builder as
    they were.  Every other call returns without an error and has stored
    the timer. *)
Theorem AddUserTimer_error_contract (now : Z) (order : list string)
    (tb : timerBuilder G) (timerID : string) (fireTimeout startedID : Z)
    (msBuilder : mutableStateBuilder) :
  let outcome :=
    AddUserTimer now order tb timerID fireTimeout startedID msBuilder in
  (fireTimeout < 0 ->
   outcome = Some ((None, Some ErrInvalidUserTimeout), tb, msBuilder)) /\
  (forall old,
     0 <= fireTimeout ->
     pendingTimerInfoIDs msBuilder !! timerID = Some old ->
     outcome = Some ((None, Some (ErrTimerIDExists timerID old)), tb, msBuilder)) /\
  (0 <= fireTimeout ->
   pendingTimerInfoIDs msBuilder !! timerID = None ->
   exists task tb' msBuilder',
     outcome = Some ((task, None), tb', msBuilder') /\
     is_Some (pendingTimerInfoIDs msBuilder' !! timerID)) /\
  ((exists task err tb' msBuilder',
      outcome = Some ((task, Some err), tb', msBuilder')) <->
   fireTimeout < 0 \/ is_Some (pendingTimerInfoIDs msBuilder !! timerID)).
Proof.
  intros outcome.
  assert (fireTimeout < 0 ->
          outcome = Some ((None, Some ErrInvalidUserTimeout), tb, msBuilder))
    as Hinvalid.
  { intros Hneg. subst outcome. unfold AddUserTimer.
    destruct (Z.ltb_spec fireTimeout 0) as [_ | ?]; [reflexivity | lia]. }
  assert (forall old, 0 <= fireTimeout ->
            pendingTimerInfoIDs msBuilder !! timerID = Some old ->
            outcome = Some ((None, Some (ErrTimerIDExists timerID old)),
                            tb, msBuilder)) as Hdup.
  { intros old Hfire Hold. subst outcome. unfold AddUserTimer, isTimerRunning.
    destruct (Z.ltb_spec fireTimeout 0) as [? | _]; [lia |].
    rewrite Hold. reflexivity. }
  pose proof (AddUserTimer_returns now order tb timerID fireTimeout startedID
                                   msBuilder) as Hok.
  fold outcome in Hok.
  split; [exact Hinvalid |]. split; [exact Hdup |]. split; [exact Hok |].
  split.
  - intros (task & err & tb' & ms' & Hout).
    destruct (Z.lt_ge_cases fireTimeout 0) as [Hneg | Hfire]; [left; exact Hneg |].
    right. destruct (pendingTimerInfoIDs msBuilder !! timerID) as [old |] eqn:Hold;
      [eauto |].
    destruct (Hok ltac:(lia) eq_refl) as (task' & tb'' & ms'' & Hout' & _).
    rewrite Hout in Hout'. discriminate.
  - intros [Hneg | [old Hold]].
    + eexists _, _, _, _. exact (Hinvalid Hneg).
    + destruct (Z.lt_ge_cases fireTimeout 0) as [Hneg | Hfire].
      * eexists _, _, _, _. exact (Hinvalid Hneg).
      * eexists _, _, _, _. exact (Hdup old ltac:(lia) Hold).
Qed.

End ErrorContract.


(** ** The mutable-state store *)

Lemma fencedOff_false rangeID s :
  fencedOff rangeID s = false <->
  rangeID = None \/ rangeID = Some (shardRangeID s).
Proof.
  unfold fencedOff. destruct rangeID as [r |]; [| split; auto].
  rewrite negb_false_iff, Z.eqb_eq. split.
  - intros ->. right. reflexivity.
  - intros [[=] | [= ->]]. reflexivity.
Qed.

Lemma fencedOff_true rangeID s :
  fencedOff rangeID s = true <->
  exists r, rangeID = Some r /\ r <> shardRangeID s.
Proof.
  unfold fencedOff. destruct rangeID as [r |].
  - rewrite negb_true_iff, Z.eqb_neq. split; [eauto |].
    intros (r' & [= <-] & Hne). exact Hne.
  - split; [discriminate | intros (r & [=] & _)].
Qed.

Lemma applyUpdate_NextEventID now req s :
  let info := UpdateWorkflowExecutionRequest.newInfo req in
  WorkflowExecutionInfo.NextEventID <$>
    executions (applyUpdate now req s)
      !! (WorkflowExecutionInfo.WorkflowID info,
          WorkflowExecutionInfo.RunID info)
  = Some (WorkflowExecutionInfo.NextEventID info).
Proof.
  intros info. unfold applyUpdate. fold info.
  destruct (decisionTasks _ _ _ _) as [tasks seq].
  cbn [executions]. rewrite lookup_insert_eq. reflexivity.
Qed.

(** C4 (as amended).  For a stored execution and an update that is not fenced
    off (it supplies no RangeID, or the shard's current one), the write is
    accepted if and only if the stored nextEventID equals
    conditionNextEventID; an accepted write stores the new nextEventID, and
    when the two differ the call fails with ConditionFailed and the store is
    left as it was. *)
Theorem updateWorkflowExecution_condition (now : Z)
    (req : UpdateWorkflowExecutionRequest.t) (s : Store)
    (stored : WorkflowExecutionInfo.t) :
  let info := UpdateWorkflowExecutionRequest.newInfo req in
  let exec := (WorkflowExecutionInfo.WorkflowID info,
               WorkflowExecutionInfo.RunID info) in
  let condition := UpdateWorkflowExecutionRequest.conditionNextEventID req in
  executions s !! exec = Some stored ->
  fencedOff (UpdateWorkflowExecutionRequest.rangeID req) s = false ->
  (fst (updateWorkflowExecution now req s) = None <->
   WorkflowExecutionInfo.NextEventID stored = condition) /\
  (WorkflowExecutionInfo.NextEventID stored = condition ->
   updateWorkflowExecution now req s = (None, applyUpdate now req s) /\
   WorkflowExecutionInfo.NextEventID <$>
     executions (snd (updateWorkflowExecution now req s)) !! exec
   = Some (WorkflowExecutionInfo.NextEventID info)) /\
  (WorkflowExecutionInfo.NextEventID stored <> condition ->
   updateWorkflowExecution now req s = (Some ConditionFailed, s)).
Proof.
  intros info exec condition Hstored Hfence.
  unfold updateWorkflowExecution. fold info exec condition.
  rewrite Hfence, Hstored.
  destruct (Z.eqb_spec (WorkflowExecutionInfo.NextEventID stored) condition)
    as [Heq | Hne]; cbn [fst snd].
  - split; [split; auto |]. split; [| contradiction].
    intros _. split; [reflexivity | apply applyUpdate_NextEventID].
  - split; [split; [discriminate | contradiction] |].
    split; [contradiction | reflexivity].
Qed.

(** The theorem of C4 on the updates of TestUpdateWorkflow. *)
Lemma updateWorkflowExecution_condition_witness :
  executions storeAfterCreate !! testExecution
    = Some (WorkflowExecutionInfo.mk (fst testExecution) (snd testExecution)
              "queue1" "event1" "" WorkflowStateCreated 3 0 10 true) /\
  fencedOff None storeAfterCreate = false /\
  updateWorkflowExecution 20 (testUpdate 4 3 None) storeAfterCreate
    = (None, storeAfterUpdate) /\
  updateWorkflowExecution 30 (testUpdate 5 3 None) storeAfterUpdate
    = (Some ConditionFailed, storeAfterUpdate).
Proof.
  assert (executions storeAfterCreate !! testExecution
          = Some (WorkflowExecutionInfo.mk (fst testExecution)
                    (snd testExecution) "queue1" "event1" ""
                    WorkflowStateCreated 3 0 10 true)) as Hstored
    by (vm_compute; reflexivity).
  assert (executions storeAfterUpdate !! testExecution
          = Some (WorkflowExecutionInfo.mk (fst testExecution)
                    (snd testExecution) "queue1" "event2" ""
                    WorkflowStateCreated 5 2 20 true)) as Hstored'
    by (vm_compute; reflexivity).
  split; [exact Hstored |]. split; [reflexivity |]. split.
  - destruct (updateWorkflowExecution_condition 20 (testUpdate 4 3 None)
                storeAfterCreate _ Hstored eq_refl) as (_ & Hyes & _).
    destruct (Hyes eq_refl) as [-> _]. reflexivity.
  - destruct (updateWorkflowExecution_condition 30 (testUpdate 5 3 None)
                storeAfterUpdate _ Hstored' eq_refl) as (_ & _ & Hno).
    apply Hno. cbn. lia.
Defined.

(** C4, as stated for every update, fails: in TestUpdateWorkflow the update
    that presents RangeID 12345 meets the stored nextEventID 5 and is
    refused with ShardOwnershipLost. *)
Lemma updateWorkflowExecution_condition_counterexample :
  WorkflowExecutionInfo.NextEventID <$> executions storeAfterUpdate !! testExecution
    = Some 5 /\
  UpdateWorkflowExecutionRequest.conditionNextEventID
    (testUpdate 5 5 (Some 12345)) = 5 /\
  updateWorkflowExecution 30 (testUpdate 5 5 (Some 12345)) storeAfterUpdate
    = (Some ShardOwnershipLost, storeAfterUpdate).
Proof. vm_compute. repeat split. Qed.

(** C5.  A conditional write, update or create, that presents a RangeID other
    than the shard's current one fails with ShardOwnershipLost and leaves
    the store as it was, whatever its nextEventID condition and whether or
    not the execution exists. *)
Theorem fencing_priority (now : Z) (s : Store) (r : Z)
    (update : UpdateWorkflowExecutionRequest.t)
    (create : CreateWorkflowExecutionRequest.t) :
  r <> shardRangeID s ->
  (UpdateWorkflowExecutionRequest.rangeID update = Some r ->
   updateWorkflowExecution now update s = (Some ShardOwnershipLost, s)) /\
  (CreateWorkflowExecutionRequest.RangeID create = Some r ->
   createWorkflowExecution now create s = (inl ShardOwnershipLost, s)).
Proof.
  intros Hne.
  assert (fencedOff (Some r) s = true) as Hfenced
    by (apply fencedOff_true; eauto).
  split; intros Hr.
  - unfold updateWorkflowExecution. rewrite Hr, Hfenced. reflexivity.
  - unfold createWorkflowExecution. rewrite Hr, Hfenced. reflexivity.
Qed.

(** The theorem of C5 on the fenced writes of the persistence test. *)
Lemma fencing_priority_witness :
  12345 <> shardRangeID storeAfterUpdate /\
  updateWorkflowExecution 30 (testUpdate 5 5 (Some 12345)) storeAfterUpdate
    = (Some ShardOwnershipLost, storeAfterUpdate) /\
  updateWorkflowExecution 30 (testUpdate 5 3 (Some 12345)) storeAfterUpdate
    = (Some ShardOwnershipLost, storeAfterUpdate) /\
  createWorkflowExecution 30
    (CreateWorkflowExecutionRequest.mk testExecution "queue1" "event1" "" 3 0 2
                                       [] (Some 12345))
    storeAfterUpdate
    = (inl ShardOwnershipLost, storeAfterUpdate).
Proof.
  assert (12345 <> shardRangeID storeAfterUpdate) as Hne
    by (vm_compute; discriminate).
  split; [exact Hne |]. split; [| split].
  - apply (fencing_priority 30 storeAfterUpdate 12345 _ testCreate Hne).
    reflexivity.
  - apply (fencing_priority 30 storeAfterUpdate 12345 _ testCreate Hne).
    reflexivity.
  - apply (fencing_priority 30 storeAfterUpdate 12345 (testUpdate 5 5 None) _ Hne).
    reflexivity.
Defined.

(** ** Further laws of the sequence key codec *)

(** X1.  Every key that [ConstructTimerKey] forms lies in the range that a
    scan from [MinTimerKey] (exclusive) to [MaxTimerKey] (inclusive) covers,
    and is never the empty sentinel [emptyTimerID]. *)
Theorem ConstructTimerKey_in_scan_range (expiryTime seqNum : Z) :
  MinTimerKey < ConstructTimerKey expiryTime seqNum <= MaxTimerKey /\
  ConstructTimerKey expiryTime seqNum <> emptyTimerID.
Proof.
  pose proof (ConstructTimerKey_nonneg expiryTime seqNum) as Hk.
  unfold MinTimerKey, MaxTimerKey, emptyTimerID. lia.
Qed.

(** X2.  Decoding a key and encoding the two fields again gives the key back
    exactly for the keys that are not negative (up to [MaxInt64]); a
    negative key loses its sign. *)
Theorem ConstructTimerKey_DeconstructTimerKey (key : Z) :
  (let '(expiryTime, seqNum) := DeconstructTimerKey key in
   ConstructTimerKey expiryTime seqNum) = key
  <-> 0 <= key <= MaxInt64.
Proof.
  unfold DeconstructTimerKey. fold (timeStampOf key).
  rewrite land_SeqNumBitmask. split.
  - intros <-. apply ConstructTimerKey_nonneg.
  - intros Hk. rewrite ConstructTimerKey_arith.
    rewrite (timeStampOf_field (timeStampOf key)).
    + rewrite Z.mod_mod by lia. rewrite (timeStampOf_nonneg key Hk). lia.
    + pose proof (timeStampOf_bounds key) as [Hb Hm]. split; assumption.
Qed.

(** X3.  Two keys are equal exactly when the expiries share a time stamp
    bucket and the sequence numbers agree modulo 2^26: a sequence number
    beyond the 26-bit field wraps into it and collides with a smaller one.
    In particular [SeqNumMax + 1] collides with 0. *)
Theorem ConstructTimerKey_collision (e1 s1 e2 s2 : Z) :
  (ConstructTimerKey e1 s1 = ConstructTimerKey e2 s2 <->
   timeStampOf e1 = timeStampOf e2 /\ s1 mod 2 ^ 26 = s2 mod 2 ^ 26) /\
  ConstructTimerKey e1 (s1 + 2 ^ 26) = ConstructTimerKey e1 s1 /\
  ConstructTimerKey e1 (SeqNumMax + 1) = ConstructTimerKey e1 0.
Proof.
  assert (ConstructTimerKey e1 s1 = ConstructTimerKey e2 s2 <->
          timeStampOf e1 = timeStampOf e2 /\ s1 mod 2 ^ 26 = s2 mod 2 ^ 26)
    as Hiff.
  { rewrite !ConstructTimerKey_arith.
    pose proof (timeStampOf_bounds e1) as [_ Hm1].
    pose proof (timeStampOf_bounds e2) as [_ Hm2].
    pose proof (Z.mod_pos_bound s1 (2 ^ 26) ltac:(lia)).
    pose proof (Z.mod_pos_bound s2 (2 ^ 26) ltac:(lia)).
    apply Z.mod_divide in Hm1, Hm2; try lia.
    destruct Hm1 as [q1 Hq1], Hm2 as [q2 Hq2]. lia. }
  split; [exact Hiff |]. split.
  - rewrite !ConstructTimerKey_arith. f_equal.
    rewrite <- (Z.mul_1_l (2 ^ 26)) at 1. apply Z.mod_add. lia.
  - rewrite !ConstructTimerKey_arith. reflexivity.
Qed.

(** X4.  A timer whose key was formed from an [int64] expiry that is not
    negative is never reported late and is reported at most one time stamp
    bucket (2^26 ns) early: [IsTimerExpired] holds once the reference time
    has reached the expiry, and only if the reference time is less than
    2^26 ns before it. *)
Theorem IsTimerExpired_window (expiryTime seqNum referenceTime : Z)
    (task : Task) (created : bool) :
  0 <= expiryTime <= MaxInt64 ->
  let td := timerDetails.mk (ConstructTimerKey expiryTime seqNum) task created in
  (expiryTime <= referenceTime -> IsTimerExpired td referenceTime = true) /\
  (IsTimerExpired td referenceTime = true ->
   expiryTime - 2 ^ 26 < referenceTime) /\
  (IsTimerExpired td referenceTime = true <->
   timeStampOf expiryTime <= referenceTime).
Proof.
  intros He td. unfold IsTimerExpired. subst td. cbn [timerDetails.SequenceID].
  rewrite DeconstructTimerKey_ConstructTimerKey.
  rewrite (timeStampOf_nonneg expiryTime He).
  pose proof (Z.mod_pos_bound expiryTime (2 ^ 26) ltac:(lia)) as Hm.
  rewrite Z.leb_le. repeat split; lia.
Qed.

Lemma IsTimerExpired_window_witness :
  0 <= 100000000000 <= MaxInt64 /\
  IsTimerExpired
    (timerDetails.mk (ConstructTimerKey 100000000000 3)
                     (TaskUserTimer (UserTimerTask.mk 0 1)) false)
    100000000000 = true.
Proof.
  assert (0 <= 100000000000 <= MaxInt64) as He by (unfold MaxInt64; lia).
  split; [exact He |].
  destruct (IsTimerExpired_window 100000000000 3 100000000000
              (TaskUserTimer (UserTimerTask.mk 0 1)) false He)
    as (Hlate & _).
  apply Hlate. lia.
Defined.

(** ** The local sequence number generator *)

Lemma nextSeqs_local n : forall l,
  MinInt64 <= counter l -> counter l + Z.of_nat n <= MaxInt64 ->
  nextSeqs n l =
    ((fun i => counter l + 1 + Z.of_nat i) <$> seq 0 n,
     mkLocalSeqNumGenerator (counter l + Z.of_nat n)).
Proof.
  induction n as [| n IH]; intros l Hlo Hhi.
  - cbn. rewrite Z.add_0_r. destruct l. reflexivity.
  - cbn [nextSeqs]. unfold NextSeq at 1, localSeqNumGenerator_NextSeq.
    rewrite wrap64_small by (unfold MinInt64, MaxInt64 in *; lia).
    rewrite IH by (cbn [counter]; lia). cbn [counter seq fmap list_fmap].
    f_equal; [| f_equal; lia].
    f_equal; [lia |]. rewrite <- seq_shift, <- list_fmap_compose.
    apply list_fmap_ext. intros i x _. cbn. lia.
Qed.

(** X5.  As long as its counter does not pass [MaxInt64], the local generator
    hands out consecutive numbers: [n] calls on a counter [c] return
    [c + 1, ..., c + n], strictly increasing and without repetition, and
    leave the counter at [c + n]; the generator of a new timer builder
    starts with 2.  At [MaxInt64] the counter wraps to [MinInt64]. *)
Theorem localSeqNumGenerator_consecutive (l : localSeqNumGenerator) (n : nat) :
  MinInt64 <= counter l -> counter l + Z.of_nat n <= MaxInt64 ->
  let '(xs, l') := nextSeqs n l in
  xs = (fun i => counter l + 1 + Z.of_nat i) <$> seq 0 n /\
  counter l' = counter l + Z.of_nat n /\
  NoDup xs /\
  StronglySorted Z.lt xs /\
  fst (NextSeq (mkLocalSeqNumGenerator MaxInt64)) = MinInt64.
Proof.
  intros Hlo Hhi. rewrite (nextSeqs_local n l Hlo Hhi). cbn [counter].
  assert (forall (c : Z) (k m : nat),
            StronglySorted Z.lt ((fun i => c + 1 + Z.of_nat i) <$> seq k m))
    as Hsorted.
  { intros c k m. revert k. induction m as [| m IHm]; intros k; cbn;
      constructor; [apply IHm |].
    apply Forall_fmap, Forall_forall. intros i Hi.
    apply elem_of_seq in Hi. cbn. lia. }
  split; [reflexivity |]. split; [reflexivity |]. split; [| split].
  - apply NoDup_fmap_2; [| apply NoDup_seq]. intros i j Hij. lia.
  - apply Hsorted.
  - reflexivity.
Qed.

Lemma localSeqNumGenerator_consecutive_witness :
  MinInt64 <= counter (mkLocalSeqNumGenerator 1) /\
  counter (mkLocalSeqNumGenerator 1) + Z.of_nat 3 <= MaxInt64 /\
  fst (nextSeqs 3 (mkLocalSeqNumGenerator 1)) = [2; 3; 4].
Proof.
  assert (MinInt64 <= counter (mkLocalSeqNumGenerator 1)) as Hlo
    by (unfold MinInt64; cbn; lia).
  assert (counter (mkLocalSeqNumGenerator 1) + Z.of_nat 3 <= MaxInt64) as Hhi
    by (unfold MaxInt64; cbn; lia).
  split; [exact Hlo |]. split; [exact Hhi |].
  pose proof (localSeqNumGenerator_consecutive (mkLocalSeqNumGenerator 1) 3
                Hlo Hhi) as Hcons.
  destruct (nextSeqs 3 (mkLocalSeqNumGenerator 1)) as [xs l'].
  destruct Hcons as (-> & _). reflexivity.
Defined.

(** ** sort.Interface on the timers *)

(** X6.  [Swap] exchanges the two timers and leaves the others in place, so
    the list keeps its length and swapping twice restores it; it panics
    exactly when an index is out of range. *)
Theorem Swap_exchanges (t : list timerDetails.t) (i j : nat) :
  (Swap t i j = None <-> (length t <= i)%nat \/ (length t <= j)%nat) /\
  forall t', Swap t i j = Some t' ->
    length t' = length t /\
    t' !! i = t !! j /\
    t' !! j = t !! i /\
    (forall k, k <> i -> k <> j -> t' !! k = t !! k) /\
    Swap t' i j = Some t.
Proof.
  unfold Swap. split.
  - destruct (t !! i) as [a |] eqn:Hi; destruct (t !! j) as [b |] eqn:Hj.
    + apply lookup_lt_Some in Hi, Hj. split; [discriminate | lia].
    + apply lookup_ge_None in Hj. split; auto.
    + apply lookup_ge_None in Hi. split; auto.
    + apply lookup_ge_None in Hi. split; auto.
  - intros t'. destruct (t !! i) as [a |] eqn:Hi; [| discriminate].
    destruct (t !! j) as [b |] eqn:Hj; [| discriminate].
    intros [= <-].
    pose proof (lookup_lt_Some _ _ _ Hi) as Hli.
    pose proof (lookup_lt_Some _ _ _ Hj) as Hlj.
    assert (<[j:=a]> (<[i:=b]> t) !! i = Some b) as Hi'.
    { destruct (decide (i = j)) as [-> | Hne].
      - rewrite list_lookup_insert_eq by (rewrite length_insert; lia). congruence.
      - rewrite list_lookup_insert_ne by congruence.
        apply list_lookup_insert_eq. lia. }
    assert (<[j:=a]> (<[i:=b]> t) !! j = Some a) as Hj'
      by (apply list_lookup_insert_eq; rewrite length_insert; lia).
    split; [rewrite !length_insert; reflexivity |].
    split; [congruence |]. split; [congruence |]. split.
    + intros k Hki Hkj. rewrite !list_lookup_insert_ne by congruence. reflexivity.
    + rewrite Hi', Hj'. f_equal. apply list_eq. intros k.
      destruct (decide (k = j)) as [-> | Hkj].
      * rewrite list_lookup_insert_eq by (rewrite !length_insert; lia). congruence.
      * rewrite list_lookup_insert_ne by congruence.
        destruct (decide (k = i)) as [-> | Hki].
        -- rewrite list_lookup_insert_eq by (rewrite !length_insert; lia).
           congruence.
        -- rewrite !list_lookup_insert_ne by congruence. reflexivity.
Qed.

(** X7.  [Less] is the strict order of the SequenceIDs: irreflexive,
    asymmetric and transitive, as sort.Interface asks; and a list of timers
    is sorted ascending by SequenceID exactly when no timer is [Less] than
    one before it. *)
Theorem Less_strict_order (t : list timerDetails.t) :
  (forall i, Less t i i <> Some true) /\
  (forall i j, Less t i j = Some true -> Less t j i = Some false) /\
  (forall i j k, Less t i j = Some true -> Less t j k = Some true ->
                 Less t i k = Some true) /\
  (Sorted seqLe t <->
   forall i j, (i < j)%nat -> Less t j i <> Some true).
Proof.
  unfold Less. split; [| split; [| split]].
  - intros i. destruct (t !! i) as [a |]; [| discriminate].
    intros [= H]. apply Z.ltb_lt in H. lia.
  - intros i j. destruct (t !! i) as [a |]; [| discriminate].
    destruct (t !! j) as [b |]; [| discriminate].
    intros [= H]. apply Z.ltb_lt in H. f_equal. apply Z.ltb_ge. lia.
  - intros i j k. destruct (t !! i) as [a |]; [| discriminate].
    destruct (t !! j) as [b |]; [| discriminate].
    destruct (t !! k) as [c |]; [| discriminate].
    intros [= H1] [= H2]. apply Z.ltb_lt in H1, H2. f_equal. apply Z.ltb_lt. lia.
  - split.
    + intros Hs i j Hij. apply Sorted_StronglySorted in Hs; [| apply _].
      destruct (t !! j) as [b |] eqn:Hj; [| discriminate].
      destruct (t !! i) as [a |] eqn:Hi; [| discriminate].
      intros [= H]. apply Z.ltb_lt in H.
      rewrite <- (take_drop_middle t j b Hj) in Hs, Hi.
      rewrite lookup_app_l in Hi
        by (rewrite length_take; apply lookup_lt_Some in Hj; lia).
      apply StronglySorted_app in Hs as (Hcross & _ & _).
      specialize (Hcross a b (list_elem_of_lookup_2 _ _ _ Hi) ltac:(left)).
      unfold seqLe in Hcross. lia.
    + intros Hless. apply StronglySorted_Sorted.
      induction t as [| a t IH]; [constructor |].
      constructor.
      * apply IH. intros i j Hij. apply (Hless (S i) (S j)). lia.
      * apply Forall_lookup_2. intros k b Hk.
        specialize (Hless 0%nat (S k) ltac:(lia)).
        change ((a :: t) !! S k) with (t !! k) in Hless.
        change ((a :: t) !! 0%nat) with (Some a) in Hless. rewrite Hk in Hless.
        unfold seqLe. destruct (Z.ltb_spec (timerDetails.SequenceID b)
                                           (timerDetails.SequenceID a));
          [contradiction | lia].
Qed.

(** ** Where the index takes a candidate *)

Lemma filter_split {A : Type} (P : A -> Prop) `{!forall x, Decision (P x)}
    (low high : list A) :
  Forall P low -> Forall (fun x => ~ P x) high ->
  filter P (low ++ high) = low /\
  filter (fun x => ~ P x) (low ++ high) = high.
Proof.
  intros Hlow Hhigh. rewrite !filter_app.
  assert (filter P low = low) as ->.
  { induction Hlow as [| x low Hx _ IH]; [reflexivity |].
    rewrite filter_cons_True by exact Hx. f_equal. exact IH. }
  assert (filter P high = []) as ->.
  { induction Hhigh as [| x high Hx _ IH]; [reflexivity |].
    rewrite filter_cons_False by exact Hx. exact IH. }
  assert (filter (fun x => ~ P x) low = []) as ->.
  { induction Hlow as [| x low Hx _ IH]; [reflexivity |].
    rewrite filter_cons_False by (intros Hn; apply Hn; exact Hx). exact IH. }
  assert (filter (fun x => ~ P x) high = high) as ->.
  { induction Hhigh as [| x high Hx _ IH]; [reflexivity |].
    rewrite filter_cons_True by exact Hx. f_equal. exact IH. }
  rewrite app_nil_r. split; reflexivity.
Qed.

(** X8.  In a sorted index [insertTimer] puts the candidate right after the
    timers whose SequenceID is smaller than its own, hence before every
    timer of the same SequenceID: its position is the number of timers with
    a smaller SequenceID. *)
Theorem insertTimer_position {G : Type} (tb : timerBuilder G)
    (td : timerDetails.t) :
  Sorted seqLe (timers tb) ->
  let smaller :=
    filter (fun t => timerDetails.SequenceID t < timerDetails.SequenceID td)
           (timers tb) in
  let notSmaller :=
    filter (fun t => ~ timerDetails.SequenceID t < timerDetails.SequenceID td)
           (timers tb) in
  timers (snd (insertTimer tb td)) = smaller ++ td :: notSmaller /\
  timers (snd (insertTimer tb td)) !! length smaller = Some td.
Proof.
  intros Hs smaller notSmaller.
  apply Sorted_StronglySorted in Hs; [| apply _].
  rewrite insertTimer_eq. cbn [snd timers].
  destruct (insertAt_spec (timers tb) td Hs) as (Hlen & Hlow & Hhigh).
  assert (Forall (fun t => ~ timerDetails.SequenceID t
                             < timerDetails.SequenceID td)
                 (drop (insertAt (timers tb) td) (timers tb))) as Hhigh'
    by (eapply Forall_impl; [exact Hhigh | cbn; intros; lia]).
  destruct (filter_split _ _ _ Hlow Hhigh') as [Hsmaller HnotSmaller].
  rewrite take_drop in Hsmaller, HnotSmaller.
  subst smaller notSmaller. rewrite Hsmaller, HnotSmaller.
  split; [reflexivity |]. apply list_lookup_middle. reflexivity.
Qed.

Lemma insertTimer_position_witness :
  Sorted seqLe (timers twoTimers) /\
  timers (snd (insertTimer twoTimers (indexedTimer 30)))
    = [indexedTimer 10; indexedTimer 30; indexedTimer 30].
Proof.
  assert (Sorted seqLe (timers twoTimers)) as Hsorted
    by (repeat constructor; unfold seqLe; cbn; lia).
  split; [exact Hsorted |].
  destruct (insertTimer_position twoTimers (indexedTimer 30) Hsorted)
    as [-> _].
  reflexivity.
Defined.

(** ** The tasks the builder creates *)

Section TaskCreation.
Context {G : Type} {gen : SequenceNumberGenerator G}.

(** What [firstTimer] returns, case by case. *)
Lemma firstTimer_eq (tb : timerBuilder G) :
  firstTimer tb =
    match timers tb with
    | td :: _ =>
        if timerDetails.TaskCreated td then (None, tb)
        else
          match timerDetails.TimerTask td with
          | TaskUserTimer u =>
              (Some (TaskUserTimer
                       {| UserTimerTask.TaskID :=
                            ConstructTimerKey
                              (timeStampOf (timerDetails.SequenceID td))
                              (fst (NextSeq (seqNumGen tb)));
                          UserTimerTask.EventID := UserTimerTask.EventID u |}),
               mkTimerBuilder (timers tb) (pendingUserTimers tb)
                              (snd (NextSeq (seqNumGen tb)))
                              (localSeqNumGen tb))
          | _ => (None, tb)
          end
    | [] => (None, tb)
    end.
Proof.
  unfold firstTimer. destruct (timers tb) as [| td rest] eqn:Hts; [reflexivity |].
  destruct (timerDetails.TaskCreated td); [reflexivity |]. cbn [negb].
  unfold createNewTask, createUserTimerTask, DeconstructTimerKey.
  fold (timeStampOf (timerDetails.SequenceID td)).
  destruct (timerDetails.TimerTask td); try reflexivity.
  destruct (NextSeq (seqNumGen tb)) as [n g]. rewrite Hts. reflexivity.
Qed.

Lemma firstTimer_none_case (tb : timerBuilder G) (P : Task -> Prop) :
  ((exists td rest u,
      timers tb = td :: rest /\ timerDetails.TaskCreated td = false /\
      timerDetails.TimerTask td = TaskUserTimer u) -> False) ->
  timers tb = timers tb /\
  pendingUserTimers tb = pendingUserTimers tb /\
  localSeqNumGen tb = localSeqNumGen tb /\
  (@None Task = None -> tb = tb) /\
  (is_Some (@None Task) <->
   exists td rest u,
     timers tb = td :: rest /\ timerDetails.TaskCreated td = false /\
     timerDetails.TimerTask td = TaskUserTimer u) /\
  (forall t : Task, None = Some t -> P t).
Proof.
  intros Hno. repeat (split; [reflexivity |]).
  split; [split; [intros [t [=]] | intros H; destruct (Hno H)] |].
  intros t [=].
Qed.

(** X9.  [firstTimer] never changes the index: the timers, the TimerInfos
    and the local generator stay as they are, and the head is not marked as
    created.  It returns a task exactly when the index has a head without a
    task whose task is a user timer task; the task then carries the event
    ID of the head, a key with the time stamp field of the head's key and
    the next durable sequence number in its low 26 bits, and the durable
    generator has moved on by one; otherwise the builder is untouched. *)
Theorem firstTimer_task (tb : timerBuilder G) :
  let '(task, tb') := firstTimer tb in
  timers tb' = timers tb /\
  pendingUserTimers tb' = pendingUserTimers tb /\
  localSeqNumGen tb' = localSeqNumGen tb /\
  (task = None -> tb' = tb) /\
  (is_Some task <->
   exists td rest u,
     timers tb = td :: rest /\ timerDetails.TaskCreated td = false /\
     timerDetails.TimerTask td = TaskUserTimer u) /\
  (forall t, task = Some t ->
     exists td rest u,
       timers tb = td :: rest /\
       timerDetails.TimerTask td = TaskUserTimer u /\
       GetType t = TaskTypeUserTimer /\
       t = TaskUserTimer
             {| UserTimerTask.TaskID := GetTaskID t;
                UserTimerTask.EventID := UserTimerTask.EventID u |} /\
       DeconstructTimerKey (GetTaskID t) =
         (fst (DeconstructTimerKey (timerDetails.SequenceID td)),
          Z.land (fst (NextSeq (seqNumGen tb))) TimerQueueSeqNumBitmask) /\
       seqNumGen tb' = snd (NextSeq (seqNumGen tb))).
Proof.
  rewrite firstTimer_eq.
  destruct (timers tb) as [| td rest] eqn:Hts.
  { rewrite <- Hts. apply firstTimer_none_case.
    intros (td & rest & u & Heq & _). congruence. }
  destruct (timerDetails.TaskCreated td) eqn:Hc.
  { rewrite <- Hts. apply firstTimer_none_case.
    intros (td' & rest' & u & Heq & Hc' & _). congruence. }
  destruct (timerDetails.TimerTask td) as [d | a | dt | at' | u] eqn:Htask.
  1-4: rewrite <- Hts; apply firstTimer_none_case;
       intros (td' & rest' & u & Heq & _ & Hu); congruence.
  cbn [timers pendingUserTimers localSeqNumGen seqNumGen].
  split; [reflexivity |]. split; [reflexivity |].
  split; [reflexivity |]. split; [discriminate |]. split.
  - split; [| eauto]. intros _. exists td, rest, u. auto.
  - intros t [= <-]. exists td, rest, u.
    cbn [GetTaskID GetType UserTimerTask.TaskID].
    split; [reflexivity |]. split; [exact Htask |]. split; [reflexivity |].
    split; [reflexivity |]. split; [| reflexivity].
    rewrite DeconstructTimerKey_ConstructTimerKey.
    unfold DeconstructTimerKey. cbn [fst].
    fold (timeStampOf (timerDetails.SequenceID td)).
    rewrite (timeStampOf_field (timeStampOf (timerDetails.SequenceID td)))
      by (pose proof (timeStampOf_bounds (timerDetails.SequenceID td)) as [? ?];
          split; assumption).
    rewrite land_SeqNumBitmask. reflexivity.
Qed.

(** X10.  Every timer task the builder creates (decision timeout, activity
    timeout, user timer) has a TaskID within the scan range from
    [MinTimerKey] (exclusive) to [MaxTimerKey] (inclusive), different from
    the empty sentinel, and takes exactly one number from the durable
    generator without touching the index.  A decision timeout task is
    created for every timeout, also for a zero or negative one. *)
Theorem created_tasks_in_scan_range (now : Z) (tb : timerBuilder G)
    (fireTimeOut eventID expiryTime : Z) (timeoutType : TimeoutType) :
  let inRange (taskID : Z) (tb' : timerBuilder G) :=
    MinTimerKey < taskID <= MaxTimerKey /\ taskID <> emptyTimerID /\
    Z.land taskID TimerQueueSeqNumBitmask
      = Z.land (fst (NextSeq (seqNumGen tb))) TimerQueueSeqNumBitmask /\
    tb' = mkTimerBuilder (timers tb) (pendingUserTimers tb)
                         (snd (NextSeq (seqNumGen tb))) (localSeqNumGen tb) in
  (let '(t, tb') := createDecisionTimeoutTask now tb fireTimeOut eventID in
   inRange (DecisionTimeoutTask.TaskID t) tb' /\
   DecisionTimeoutTask.EventID t = eventID) /\
  (let '(t, tb') :=
     createActivityTimeoutTask now tb fireTimeOut timeoutType eventID in
   inRange (ActivityTimeoutTask.TaskID t) tb' /\
   ActivityTimeoutTask.EventID t = eventID /\
   ActivityTimeoutTask.TimeoutType t = timeoutType) /\
  (let '(t, tb') := createUserTimerTask tb expiryTime eventID in
   inRange (UserTimerTask.TaskID t) tb' /\
   UserTimerTask.EventID t = eventID /\
   Z.land (UserTimerTask.TaskID t) TimerQueueTimeStampBitmask
     = Z.land expiryTime TimerQueueTimeStampBitmask).
Proof.
  intros inRange.
  assert (forall e, inRange
            (ConstructTimerKey e (fst (NextSeq (seqNumGen tb))))
            (mkTimerBuilder (timers tb) (pendingUserTimers tb)
                            (snd (NextSeq (seqNumGen tb))) (localSeqNumGen tb)))
    as Hrange.
  { intros e. subst inRange. cbn beta.
    pose proof (ConstructTimerKey_nonneg e (fst (NextSeq (seqNumGen tb)))) as Hk.
    unfold MinTimerKey, MaxTimerKey, emptyTimerID.
    split; [lia |]. split; [lia |]. split; [| reflexivity].
    pose proof (DeconstructTimerKey_ConstructTimerKey e
                  (fst (NextSeq (seqNumGen tb)))) as Hd.
    unfold DeconstructTimerKey in Hd. injection Hd as _ Hd.
    rewrite Hd, land_SeqNumBitmask. reflexivity. }
  unfold createDecisionTimeoutTask, createActivityTimeoutTask,
    createUserTimerTask.
  destruct (NextSeq (seqNumGen tb)) as [n g] eqn:Hnext. cbn [fst snd] in Hrange.
  cbn [DecisionTimeoutTask.TaskID DecisionTimeoutTask.EventID
       ActivityTimeoutTask.TaskID ActivityTimeoutTask.EventID
       ActivityTimeoutTask.TimeoutType UserTimerTask.TaskID
       UserTimerTask.EventID].
  split; [split; [apply Hrange | reflexivity] |].
  split; [split; [apply Hrange | split; reflexivity] |].
  split; [apply Hrange |]. split; [reflexivity |].
  apply (timeStampOf_ConstructTimerKey expiryTime n).
Qed.

(** The three timeouts that read the pending ActivityInfo. *)
Lemma activityTimeout_eq (now : Z) (tb : timerBuilder G) (scheduleID : Z)
    (ms : mutableStateBuilder) :
  let viaInfo (timeoutType : TimeoutType) (timeout : ActivityInfo.t -> Z) :=
    match pendingActivityInfoIDs ms !! scheduleID with
    | Some ai =>
        let '(t, tb') :=
          AddActivityTimeoutTask now tb scheduleID timeoutType (timeout ai) in
        ((t, None), tb')
    | None => ((None, Some (ErrActivityInfoNotFound scheduleID)), tb)
    end in
  AddScheduleToCloseActivityTimeout now tb scheduleID ms
    = viaInfo TimeoutType_SCHEDULE_TO_CLOSE ActivityInfo.ScheduleToCloseTimeout /\
  AddStartToCloseActivityTimeout now tb scheduleID ms
    = viaInfo TimeoutType_START_TO_CLOSE ActivityInfo.StartToCloseTimeout /\
  AddHeartBeatActivityTimeout now tb scheduleID ms
    = viaInfo TimeoutType_HEARTBEAT ActivityInfo.HeartbeatTimeout.
Proof.
  unfold AddScheduleToCloseActivityTimeout, AddStartToCloseActivityTimeout,
    AddHeartBeatActivityTimeout, isActivityRunning.
  destruct (pendingActivityInfoIDs ms !! scheduleID); repeat split.
Qed.

(** X11.  The schedule-to-close, start-to-close and heartbeat timeouts fail
    exactly when the schedule ID has no pending ActivityInfo, and then
    return no task and leave the builder as it is.  Otherwise each returns
    without error, with a task of its own timeout kind exactly when the
    timeout stored in the ActivityInfo is positive. *)
Theorem activityTimeouts_contract (now : Z) (tb : timerBuilder G)
    (scheduleID : Z) (ms : mutableStateBuilder) :
  let contract (timeoutType : TimeoutType) (timeout : ActivityInfo.t -> Z)
      (outcome : (option ActivityTimeoutTask.t * option timerError)
                 * timerBuilder G) :=
    (pendingActivityInfoIDs ms !! scheduleID = None ->
     outcome = ((None, Some (ErrActivityInfoNotFound scheduleID)), tb)) /\
    (forall ai, pendingActivityInfoIDs ms !! scheduleID = Some ai ->
       snd (fst outcome) = None /\
       (timeout ai <= 0 -> outcome = ((None, None), tb)) /\
       (0 < timeout ai ->
        exists t, fst (fst outcome) = Some t /\
                  ActivityTimeoutTask.TimeoutType t = timeoutType /\
                  ActivityTimeoutTask.EventID t = scheduleID /\
                  seqNumGen (snd outcome) = snd (NextSeq (seqNumGen tb)))) in
  contract TimeoutType_SCHEDULE_TO_CLOSE ActivityInfo.ScheduleToCloseTimeout
           (AddScheduleToCloseActivityTimeout now tb scheduleID ms) /\
  contract TimeoutType_START_TO_CLOSE ActivityInfo.StartToCloseTimeout
           (AddStartToCloseActivityTimeout now tb scheduleID ms) /\
  contract TimeoutType_HEARTBEAT ActivityInfo.HeartbeatTimeout
           (AddHeartBeatActivityTimeout now tb scheduleID ms).
Proof.
  intros contract.
  destruct (activityTimeout_eq now tb scheduleID ms) as (-> & -> & ->).
  assert (forall timeoutType timeout,
            contract timeoutType timeout
              match pendingActivityInfoIDs ms !! scheduleID with
              | Some ai =>
                  let '(t, tb') :=
                    AddActivityTimeoutTask now tb scheduleID timeoutType
                                           (timeout ai) in
                  ((t, None), tb')
              | None => ((None, Some (ErrActivityInfoNotFound scheduleID)), tb)
              end) as Hall.
  { intros timeoutType timeout. subst contract. cbn beta.
    destruct (pendingActivityInfoIDs ms !! scheduleID) as [ai |].
    - split; [discriminate |]. intros ai' [= <-].
      destruct (Z.le_gt_cases (timeout ai) 0) as [Hle | Hgt].
      + unfold AddActivityTimeoutTask.
        destruct (Z.leb_spec (timeout ai) 0) as [_ | ?]; [| lia].
        split; [reflexivity |]. split; [reflexivity | lia].
      + rewrite AddActivityTimeoutTask_fires by lia. cbn [fst snd].
        split; [reflexivity |]. split; [lia |]. intros _.
        eexists. repeat split.
    - split; [reflexivity | discriminate]. }
  split; [apply Hall |]. split; apply Hall.
Qed.

(** X12.  Once [AddScheduleToStartActivityTimeout] has recorded an activity,
    its schedule-to-close and start-to-close timeouts never fail and always
    return a task, because the recorded timeouts are positive (a zero or
    negative one was replaced by the default); its heartbeat timeout never
    fails and returns a task exactly when the configured heartbeat timeout
    is positive. *)
Theorem activityTimeouts_after_schedule (emptyEventID now now' : Z)
    (tb : timerBuilder G) (scheduleID : Z)
    (scheduleEvent : ActivityTaskScheduledEventAttributes.t)
    (ms : mutableStateBuilder) :
  let '(_, tb1, ms1) :=
    AddScheduleToStartActivityTimeout emptyEventID now tb scheduleID
                                      scheduleEvent ms in
  (exists t tb2,
     AddScheduleToCloseActivityTimeout now' tb1 scheduleID ms1
       = ((Some t, None), tb2) /\
     ActivityTimeoutTask.TimeoutType t = TimeoutType_SCHEDULE_TO_CLOSE) /\
  (exists t tb2,
     AddStartToCloseActivityTimeout now' tb1 scheduleID ms1
       = ((Some t, None), tb2) /\
     ActivityTimeoutTask.TimeoutType t = TimeoutType_START_TO_CLOSE) /\
  (exists t tb2,
     AddHeartBeatActivityTimeout now' tb1 scheduleID ms1 = ((t, None), tb2) /\
     (is_Some t <->
      0 < ActivityTaskScheduledEventAttributes.HeartbeatTimeoutSeconds
            scheduleEvent)).
Proof.
  unfold AddScheduleToStartActivityTimeout.
  set (s2s := if _ <=? 0 then DefaultScheduleToStartActivityTimeoutInSecs else _).
  set (s2c := if _ <=? 0 then DefaultScheduleToCloseActivityTimeoutInSecs else _).
  set (st2c := if _ <=? 0 then DefaultStartToCloseActivityTimeoutInSecs else _).
  assert (0 < s2c) as Hs2c
    by (subst s2c; unfold DefaultScheduleToCloseActivityTimeoutInSecs;
        destruct (Z.leb_spec
          (ActivityTaskScheduledEventAttributes.ScheduleToCloseTimeoutSeconds
             scheduleEvent) 0); lia).
  assert (0 < st2c) as Hst2c
    by (subst st2c; unfold DefaultStartToCloseActivityTimeoutInSecs;
        destruct (Z.leb_spec
          (ActivityTaskScheduledEventAttributes.StartToCloseTimeoutSeconds
             scheduleEvent) 0); lia).
  destruct (AddActivityTimeoutTask now tb scheduleID
              TimeoutType_SCHEDULE_TO_START s2s) as [t1 tb1].
  set (ms1 := UpdatePendingActivity ms scheduleID _).
  destruct (activityTimeout_eq now' tb1 scheduleID ms1) as (-> & -> & ->).
  assert (pendingActivityInfoIDs ms1 !! scheduleID = Some
            {| ActivityInfo.ScheduleID := scheduleID;
               ActivityInfo.StartedID := emptyEventID;
               ActivityInfo.ActivityID :=
                 ActivityTaskScheduledEventAttributes.ActivityId scheduleEvent;
               ActivityInfo.ScheduleToStartTimeout := s2s;
               ActivityInfo.ScheduleToCloseTimeout := s2c;
               ActivityInfo.StartToCloseTimeout := st2c;
               ActivityInfo.HeartbeatTimeout :=
                 ActivityTaskScheduledEventAttributes.HeartbeatTimeoutSeconds
                   scheduleEvent;
               ActivityInfo.CancelRequested := false;
               ActivityInfo.CancelRequestID := emptyEventID |}) as ->
    by apply lookup_insert_eq.
  cbn [ActivityInfo.ScheduleToCloseTimeout ActivityInfo.StartToCloseTimeout
       ActivityInfo.HeartbeatTimeout].
  rewrite !AddActivityTimeoutTask_fires by assumption.
  split; [eexists _, _; split; reflexivity |].
  split; [eexists _, _; split; reflexivity |].
  destruct (Z.le_gt_cases
              (ActivityTaskScheduledEventAttributes.HeartbeatTimeoutSeconds
                 scheduleEvent) 0) as [Hle | Hgt].
  - unfold AddActivityTimeoutTask.
    destruct (Z.leb_spec
                (ActivityTaskScheduledEventAttributes.HeartbeatTimeoutSeconds
                   scheduleEvent) 0) as [_ | ?]; [| lia].
    eexists _, _. split; [reflexivity |]. split; [intros [t [=]] | lia].
  - rewrite AddActivityTimeoutTask_fires by lia.
    eexists _, _. split; [reflexivity |]. split; [intros _; lia | eauto].
Qed.

End TaskCreation.

(** ** User timers in any order of the range *)

Section UserTimers.
Context {G : Type} {gen : SequenceNumberGenerator G}.

(** The loop of [LoadUserTimers] in any order: the index stays sorted, grows
    by one entry per value, keeps a TimerInfo of the values for every entry
    and leaves the durable generator alone. *)
Lemma load_any_order (vs : list TimerInfo.t) (tb0 : timerBuilder G) :
  timers tb0 = [] -> pendingUserTimers tb0 = ∅ ->
  let tb := fold_left loadOne vs tb0 in
  StronglySorted seqLe (timers tb) /\
  length (timers tb) = length vs /\
  seqNumGen tb = seqNumGen tb0 /\
  (forall s v, pendingUserTimers tb !! s = Some v -> v ∈ vs) /\
  (forall td, td ∈ timers tb -> exists v, v ∈ vs /\ loadedFrom td v).
Proof.
  intros Hnil Hempty. induction vs as [| v vs IH] using rev_ind; intros tb.
  - subst tb. cbn [fold_left]. rewrite Hnil, Hempty.
    split; [constructor |]. split; [reflexivity |]. split; [reflexivity |].
    split.
    + intros s v Hs. rewrite lookup_empty in Hs. discriminate.
    + intros td Htd. apply elem_of_nil in Htd as [].
  - cbn zeta in IH. destruct IH as (Hsorted & Hlen & Hgen & Hvals & Hfrom).
    subst tb. rewrite fold_left_app. cbn [fold_left]. rewrite loadOne_eq.
    cbn zeta. cbn [timers pendingUserTimers seqNumGen].
    split; [apply insertAt_sorted, Hsorted |].
    split; [rewrite insertAt_perm, length_app; cbn; lia |].
    split; [exact Hgen |]. split.
    + intros s v' Hs. rewrite lookup_insert in Hs. apply elem_of_app.
      case_decide; [right; injection Hs as <-; left | left; eapply Hvals, Hs].
    + intros td Htd. rewrite insertAt_perm in Htd.
      apply elem_of_cons in Htd as [-> | Htd].
      * exists v. split; [apply elem_of_app; right; left | eexists; reflexivity].
      * destruct (Hfrom td Htd) as (v' & Hv' & Hl). exists v'.
        split; [apply elem_of_app; left; exact Hv' | exact Hl].
Qed.

(** The outcome of a call that passes both checks, whatever the order of
    the range: either no task, and the snapshot is the old one with the new
    timer; or one user timer task, whose ID is written into one pending
    TimerInfo. *)
Lemma AddUserTimer_shape now order (tb : timerBuilder G) timerID fireTimeout
    startedID ms :
  0 <= fireTimeout ->
  pendingTimerInfoIDs ms !! timerID = None ->
  let ms1 :=
    UpdatePendingTimers ms timerID
      {| TimerInfo.TimerID := timerID;
         TimerInfo.ExpiryTime := Time_Add now (wrap64 (fireTimeout * Second));
         TimerInfo.StartedID := startedID;
         TimerInfo.TaskID := emptyTimerID |} in
  (exists tb',
     AddUserTimer now order tb timerID fireTimeout startedID ms
       = Some ((None, None), tb', ms1) /\
     seqNumGen tb' = seqNumGen tb) \/
  (exists tb' k0 v0 u,
     pendingTimerInfoIDs ms1 !! k0 = Some v0 /\
     0 <= UserTimerTask.TaskID u <= MaxInt64 /\
     Z.land (UserTimerTask.TaskID u) TimerQueueSeqNumBitmask
       = Z.land (fst (NextSeq (seqNumGen tb))) TimerQueueSeqNumBitmask /\
     seqNumGen tb' = snd (NextSeq (seqNumGen tb)) /\
     AddUserTimer now order tb timerID fireTimeout startedID ms
       = Some ((Some (TaskUserTimer u), None), tb',
               UpdatePendingTimers ms1 (TimerInfo.TimerID v0)
                 (withTaskID v0 (UserTimerTask.TaskID u)))).
Proof.
  intros Hfire Hfresh ms1. unfold AddUserTimer, isTimerRunning.
  destruct (Z.ltb_spec fireTimeout 0) as [? | _]; [lia |].
  rewrite Hfresh. fold ms1. rewrite LoadUserTimers_values.
  set (tb0 := mkTimerBuilder [] ∅ (seqNumGen tb) (localSeqNumGen tb)).
  destruct (load_any_order (rangeValues ms1 order) tb0 eq_refl eq_refl)
    as (_ & _ & Hgen & Hvals & _).
  set (tb1 := fold_left loadOne (rangeValues ms1 order) tb0) in *.
  rewrite firstTimer_eq.
  destruct (timers tb1) as [| td0 rest] eqn:Hts;
    [left; eexists; split; [reflexivity | exact Hgen] |].
  destruct (timerDetails.TaskCreated td0);
    [left; eexists; split; [reflexivity | exact Hgen] |].
  destruct (timerDetails.TimerTask td0) as [d | a | dt | at' | u0];
    try (left; eexists; split; [reflexivity | exact Hgen]).
  cbn [timers pendingUserTimers seqNumGen localSeqNumGen]. rewrite ?Hts.
  destruct (load_indexed (rangeValues ms1 order) tb0 eq_refl td0) as [v0 Hv0].
  { fold tb1. rewrite Hts. left. }
  fold tb1 in Hv0. rewrite Hv0. cbn [GetTaskID UserTimerTask.TaskID].
  pose proof (Hvals _ _ Hv0) as Hin.
  apply list_elem_of_omap in Hin as (k0 & _ & Hk0).
  change (seqNumGen tb0) with (seqNumGen tb) in Hgen. rewrite Hgen.
  right.
  eexists _, k0, v0,
    {| UserTimerTask.TaskID :=
         ConstructTimerKey (timeStampOf (timerDetails.SequenceID td0))
                           (fst (NextSeq (seqNumGen tb)));
       UserTimerTask.EventID := UserTimerTask.EventID u0 |}.
  split; [exact Hk0 |].
  split; [| split; [| split; [| reflexivity]]]; cbn [UserTimerTask.TaskID seqNumGen].
  - apply ConstructTimerKey_nonneg.
  - pose proof (DeconstructTimerKey_ConstructTimerKey
                  (timeStampOf (timerDetails.SequenceID td0))
                  (fst (NextSeq (seqNumGen tb)))) as Hd.
    unfold DeconstructTimerKey in Hd. injection Hd as _ Hd.
    rewrite Hd, land_SeqNumBitmask. reflexivity.
  - reflexivity.
Qed.


(** X13.  A timer ID can be added once: after a call of [AddUserTimer] that
    succeeded, every further call for the same timer ID with a timeout that
    is not negative fails as a duplicate, reports the TimerInfo stored by
    the first call, and changes neither the builder nor the snapshot, in
    whatever order the ranges run. *)
Theorem AddUserTimer_twice (now now' : Z) (order order' : list string)
    (tb : timerBuilder G) (timerID : string)
    (fireTimeout startedID fireTimeout' startedID' : Z)
    (ms : mutableStateBuilder) :
  0 <= fireTimeout ->
  pendingTimerInfoIDs ms !! timerID = None ->
  0 <= fireTimeout' ->
  exists task tb1 ms1 old,
    AddUserTimer now order tb timerID fireTimeout startedID ms
      = Some ((task, None), tb1, ms1) /\
    pendingTimerInfoIDs ms1 !! timerID = Some old /\
    AddUserTimer now' order' tb1 timerID fireTimeout' startedID' ms1
      = Some ((None, Some (ErrTimerIDExists timerID old)), tb1, ms1).
Proof.
  intros Hfire Hfresh Hfire'.
  destruct (AddUserTimer_returns now order tb timerID fireTimeout startedID ms
              Hfire Hfresh) as (task & tb1 & ms1 & Hrun & [old Hold]).
  exists task, tb1, ms1, old. split; [exact Hrun |]. split; [exact Hold |].
  unfold AddUserTimer, isTimerRunning.
  destruct (Z.ltb_spec fireTimeout' 0) as [? | _]; [lia |].
  rewrite Hold. reflexivity.
Qed.

(** X14.  A successful [AddUserTimer] only adds to the snapshot.  When every
    pending TimerInfo sits under its own timer ID before the call, it does
    so after it; the pending activities are untouched; the pending timers
    are those of before and the new one; every timer that was pending keeps
    its timer ID, expiry and started ID, keeps a task if it had one, and is
    unchanged altogether when the call returns no task; the new timer is
    stored with the expiry [now + fireTimeout * time.Second] and the
    started ID of the call.  This holds in whatever order the range of
    [LoadUserTimers] runs. *)
Theorem AddUserTimer_keeps_pending (now : Z) (order : list string)
    (tb : timerBuilder G) (timerID : string) (fireTimeout startedID : Z)
    (ms : mutableStateBuilder) :
  timerKeysAgree ms ->
  0 <= fireTimeout ->
  pendingTimerInfoIDs ms !! timerID = None ->
  exists task tb' ms',
    AddUserTimer now order tb timerID fireTimeout startedID ms
      = Some ((task, None), tb', ms') /\
    timerKeysAgree ms' /\
    pendingActivityInfoIDs ms' = pendingActivityInfoIDs ms /\
    (forall k, is_Some (pendingTimerInfoIDs ms' !! k) <->
               k = timerID \/ is_Some (pendingTimerInfoIDs ms !! k)) /\
    (forall k ti, pendingTimerInfoIDs ms !! k = Some ti ->
       exists ti',
         pendingTimerInfoIDs ms' !! k = Some ti' /\
         TimerInfo.TimerID ti' = TimerInfo.TimerID ti /\
         TimerInfo.ExpiryTime ti' = TimerInfo.ExpiryTime ti /\
         TimerInfo.StartedID ti' = TimerInfo.StartedID ti /\
         (TimerInfo.TaskID ti <> emptyTimerID ->
          TimerInfo.TaskID ti' <> emptyTimerID) /\
         (task = None -> ti' = ti)) /\
    (exists ti,
       pendingTimerInfoIDs ms' !! timerID = Some ti /\
       TimerInfo.TimerID ti = timerID /\
       TimerInfo.ExpiryTime ti = now + wrap64 (fireTimeout * 1000000000) /\
       TimerInfo.StartedID ti = startedID /\
       (task = None -> TimerInfo.TaskID ti = emptyTimerID)).
Proof.
  intros Hagree Hfire Hfresh.
  pose proof (AddUserTimer_shape now order tb timerID fireTimeout startedID ms
                Hfire Hfresh) as Hshape.
  cbn zeta in Hshape.
  set (new := {| TimerInfo.TimerID := timerID;
                 TimerInfo.ExpiryTime :=
                   Time_Add now (wrap64 (fireTimeout * Second));
                 TimerInfo.StartedID := startedID;
                 TimerInfo.TaskID := emptyTimerID |}) in *.
  set (ms1 := UpdatePendingTimers ms timerID new) in *.
  assert (timerKeysAgree ms1) as Hagree1
    by (apply timerKeysAgree_update; [exact Hagree | reflexivity]).
  assert (forall k, pendingTimerInfoIDs ms1 !! k
                    = if decide (timerID = k) then Some new
                      else pendingTimerInfoIDs ms !! k) as Hms1
    by (intros k; apply lookup_insert).
  destruct Hshape as [(tb' & Hrun & _)
                     | (tb' & k0 & v0 & u & Hk0 & Hrange & _ & _ & Hrun)].
  - exists None, tb', ms1. split; [exact Hrun |]. split; [exact Hagree1 |].
    split; [reflexivity |]. split; [| split].
    + intros k. rewrite Hms1. case_decide as Hd; [subst k |].
      * split; [auto | eauto].
      * split; [auto | intros [? | ?]; [congruence | assumption]].
    + intros k ti Hk. exists ti. rewrite Hms1.
      case_decide as Hd; [congruence |]. repeat split; auto.
    + exists new. rewrite Hms1. case_decide; [| congruence].
      repeat split.
  - pose proof (Hagree1 _ _ Hk0) as Hid0. rewrite Hid0 in Hrun.
    set (ms' := UpdatePendingTimers ms1 k0
                  (withTaskID v0 (UserTimerTask.TaskID u))) in *.
    assert (forall k, pendingTimerInfoIDs ms' !! k
                      = if decide (k0 = k)
                        then Some (withTaskID v0 (UserTimerTask.TaskID u))
                        else pendingTimerInfoIDs ms1 !! k) as Hms'
      by (intros k; apply lookup_insert).
    assert (TimerInfo.TaskID (withTaskID v0 (UserTimerTask.TaskID u))
            <> emptyTimerID) as Htask
      by (cbn; unfold emptyTimerID; lia).
    exists (Some (TaskUserTimer u)), tb', ms'.
    split; [exact Hrun |]. split; [| split; [reflexivity |]].
    { apply timerKeysAgree_update; [exact Hagree1 | exact Hid0]. }
    split; [| split].
    + intros k. rewrite Hms', Hms1.
      case_decide as Hd0; [subst k |].
      * rewrite Hms1 in Hk0. case_decide; split; eauto.
      * case_decide as Hd; [subst k |].
        -- split; [auto | eauto].
        -- split; [auto | intros [? | ?]; [congruence | assumption]].
    + intros k ti Hk. assert (timerID <> k) as Hne by congruence.
      rewrite Hms'. case_decide as Hd0; [subst k |].
      * assert (v0 = ti) as ->
          by (rewrite Hms1 in Hk0; case_decide; congruence).
        eexists. split; [reflexivity |]. cbn.
        repeat split; auto; discriminate.
      * exists ti. rewrite Hms1. case_decide; [congruence |].
        repeat split; auto; discriminate.
    + rewrite Hms'. case_decide as Hd0; [subst k0 |].
      * assert (v0 = new) as ->
          by (rewrite Hms1 in Hk0; case_decide; congruence).
        eexists. split; [reflexivity |]. cbn. repeat split; discriminate.
      * exists new. rewrite Hms1. case_decide; [| congruence].
        repeat split; discriminate.
Qed.


(** X15.  With the pending timers in distinct time stamp buckets,
    [AddUserTimer] creates a task exactly when the pending timer of the
    least bucket, the new timer included, has none.  The task carries the
    started ID of that timer as its event ID and a key made of the bucket
    of that timer's expiry and the next durable sequence number; the key is
    written into the TimerInfo of that timer and of no other, and one
    durable sequence number is used.  When the earliest timer has a task
    already, no task is returned, no sequence number is used and the
    snapshot only gains the new timer. *)
Theorem AddUserTimer_task_for_earliest (now : Z) (order : list string)
    (tb : timerBuilder G) (timerID : string) (fireTimeout startedID : Z)
    (ms : mutableStateBuilder) :
  0 <= fireTimeout ->
  pendingTimerInfoIDs ms !! timerID = None ->
  timerKeysAgree ms ->
  let ms1 :=
    UpdatePendingTimers ms timerID
      {| TimerInfo.TimerID := timerID;
         TimerInfo.ExpiryTime := Time_Add now (wrap64 (fireTimeout * Second));
         TimerInfo.StartedID := startedID;
         TimerInfo.TaskID := emptyTimerID |} in
  rangeOrder ms1 order ->
  distinctStamps ms1 ->
  exists k0 v0 tb',
    pendingTimerInfoIDs ms1 !! k0 = Some v0 /\
    (forall k v, pendingTimerInfoIDs ms1 !! k = Some v ->
                 stampOfTimer v0 <= stampOfTimer v) /\
    if taskCreated v0 then
      AddUserTimer now order tb timerID fireTimeout startedID ms
        = Some ((None, None), tb', ms1) /\
      seqNumGen tb' = seqNumGen tb
    else
      let taskID :=
        ConstructTimerKey (stampOfTimer v0) (fst (NextSeq (seqNumGen tb))) in
      AddUserTimer now order tb timerID fireTimeout startedID ms
        = Some ((Some (TaskUserTimer
                         {| UserTimerTask.TaskID := taskID;
                            UserTimerTask.EventID := TimerInfo.StartedID v0 |}),
                 None), tb',
                UpdatePendingTimers ms1 k0 (withTaskID v0 taskID)) /\
      seqNumGen tb' = snd (NextSeq (seqNumGen tb)) /\
      fst (DeconstructTimerKey taskID) = stampOfTimer v0.
Proof.
  intros Hfire Hfresh Hagree ms1 Hro Hdist.
  assert (timerKeysAgree ms1) as Hagree1
    by (apply timerKeysAgree_update; [exact Hagree | reflexivity]).
  unfold AddUserTimer, isTimerRunning.
  destruct (Z.ltb_spec fireTimeout 0) as [? | _]; [lia |].
  rewrite Hfresh. fold ms1. rewrite LoadUserTimers_values.
  set (tb0 := mkTimerBuilder [] ∅ (seqNumGen tb) (localSeqNumGen tb)).
  set (vs := rangeValues ms1 order).
  assert (NoDup (map stampOfTimer vs)) as Hnd
    by (apply rangeValues_NoDup; [eapply rangeOrder_NoDup; exact Hro | exact Hdist]).
  assert (vs <> []) as Hne.
  { intros Hnil.
    assert (exists v, v ∈ vs) as [v Hv].
    { eexists. apply (rangeValues_elem ms1 order _ Hro). exists timerID.
      unfold ms1, UpdatePendingTimers. cbn [pendingTimerInfoIDs].
      apply lookup_insert_eq. }
    rewrite Hnil in Hv. apply elem_of_nil in Hv as []. }
  destruct (load_any_order vs tb0 eq_refl eq_refl) as (_ & _ & Hgen & _).
  change (seqNumGen tb0) with (seqNumGen tb) in Hgen.
  destruct (timers (fold_left loadOne vs tb0)) as [| td0 rest] eqn:Hts;
    [exfalso; exact (load_nonempty vs tb0 Hne Hts) |].
  destruct (load_head vs tb0 td0 rest eq_refl Hnd Hts)
    as (v0 & Hv0 & Hfrom & Hlook & Hmin).
  apply (rangeValues_elem ms1 order v0 Hro) in Hv0 as [k0 Hk0].
  exists k0, v0.
  assert (forall k v, pendingTimerInfoIDs ms1 !! k = Some v ->
                      stampOfTimer v0 <= stampOfTimer v) as Hmin'.
  { intros k v Hk. apply Hmin. apply (rangeValues_elem ms1 order v Hro). eauto. }
  destruct (taskCreated v0) eqn:Hc.
  - rewrite (firstTimer_created _ td0 rest Hts)
      by (rewrite (loadedFrom_TaskCreated _ _ Hfrom); exact Hc).
    eexists. split; [exact Hk0 |]. split; [exact Hmin' |].
    split; [reflexivity | exact Hgen].
  - rewrite (firstTimer_new _ td0 rest v0 Hts Hfrom)
      by (rewrite (loadedFrom_TaskCreated _ _ Hfrom); exact Hc).
    cbn [timers pendingUserTimers]. rewrite Hts, Hlook, Hgen.
    replace (TimerInfo.TimerID (withTaskID v0 _)) with k0
      by (symmetry; exact (Hagree1 _ _ Hk0)).
    eexists. split; [exact Hk0 |]. split; [exact Hmin' |].
    cbn zeta. split; [reflexivity |]. split; [reflexivity |].
    rewrite DeconstructTimerKey_ConstructTimerKey. cbn [fst].
    unfold stampOfTimer. apply timeStampOf_field.
    pose proof (timeStampOf_bounds (UnixNano (TimerInfo.ExpiryTime v0))) as [? ?].
    split; assumption.
Qed.

(** X16.  [LoadUserTimers] rebuilds the index from the snapshot alone: what
    the builder held before is discarded, the durable generator is not
    used, and in whatever order the range runs the index comes out sorted
    ascending by SequenceID with one entry per pending timer visited, each
    entry a user timer for the started ID of a visited TimerInfo, created
    or not as that TimerInfo has a task or not, and each with a TimerInfo
    under its SequenceID. *)
Theorem LoadUserTimers_rebuilds (order : list string) (tb : timerBuilder G)
    (ms : mutableStateBuilder) (stale : list timerDetails.t)
    (staleInfos : gmap Z TimerInfo.t) :
  let tb' := LoadUserTimers order tb ms in
  LoadUserTimers order
    (mkTimerBuilder stale staleInfos (seqNumGen tb) (localSeqNumGen tb)) ms
    = tb' /\
  Sorted seqLe (timers tb') /\
  length (timers tb') = length (rangeValues ms order) /\
  seqNumGen tb' = seqNumGen tb /\
  forall td, td ∈ timers tb' ->
    is_Some (pendingUserTimers tb' !! timerDetails.SequenceID td) /\
    exists k v,
      k ∈ order /\ pendingTimerInfoIDs ms !! k = Some v /\
      timerDetails.TimerTask td =
        TaskUserTimer {| UserTimerTask.TaskID := 0;
                         UserTimerTask.EventID := TimerInfo.StartedID v |} /\
      timerDetails.TaskCreated td = taskCreated v /\
      fst (DeconstructTimerKey (timerDetails.SequenceID td))
        = stampOfTimer v.
Proof.
  intros tb'. subst tb'. split; [reflexivity |].
  rewrite LoadUserTimers_values.
  set (tb0 := mkTimerBuilder [] ∅ (seqNumGen tb) (localSeqNumGen tb)).
  destruct (load_any_order (rangeValues ms order) tb0 eq_refl eq_refl)
    as (Hsorted & Hlen & Hgen & _ & Hfrom).
  split; [apply StronglySorted_Sorted, Hsorted |].
  split; [exact Hlen |]. split; [exact Hgen |].
  intros td Htd.
  split; [apply (load_indexed (rangeValues ms order) tb0 eq_refl td Htd) |].
  destruct (Hfrom td Htd) as (v & Hv & Hl).
  apply list_elem_of_omap in Hv as (k & Hk & Hkv).
  exists k, v. split; [exact Hk |]. split; [exact Hkv |].
  split; [apply (loadedFrom_TimerTask _ _ Hl) |].
  split; [apply (loadedFrom_TaskCreated _ _ Hl) |].
  unfold DeconstructTimerKey. cbn [fst]. apply (loadedFrom_stamp _ _ Hl).
Qed.

(** X17.  After [LoadUserTimers] over pending timers in distinct time stamp
    buckets, the index and the snapshot correspond one to one: the index
    has as many entries as there are pending timers, every pending
    TimerInfo has an entry under whose SequenceID [UserTimer] finds that
    very TimerInfo, and a SequenceID that is not in the index finds
    nothing that is not pending. *)
Theorem LoadUserTimers_UserTimer (order : list string) (tb : timerBuilder G)
    (ms : mutableStateBuilder) :
  rangeOrder ms order ->
  distinctStamps ms ->
  let tb' := LoadUserTimers order tb ms in
  length (timers tb') = size (pendingTimerInfoIDs ms) /\
  (forall k v, pendingTimerInfoIDs ms !! k = Some v ->
     exists td,
       td ∈ timers tb' /\
       UserTimer tb' (timerDetails.SequenceID td) = (true, Some v) /\
       timerDetails.TaskCreated td = taskCreated v /\
       fst (DeconstructTimerKey (timerDetails.SequenceID td))
         = stampOfTimer v) /\
  (forall s v, UserTimer tb' s = (true, Some v) ->
     exists k, pendingTimerInfoIDs ms !! k = Some v).
Proof.
  intros Hro Hdist tb'. subst tb'. rewrite LoadUserTimers_values.
  set (tb0 := mkTimerBuilder [] ∅ (seqNumGen tb) (localSeqNumGen tb)).
  assert (NoDup (map stampOfTimer (rangeValues ms order))) as Hnd
    by (apply rangeValues_NoDup; [eapply rangeOrder_NoDup; exact Hro | exact Hdist]).
  destruct (load_invariant (rangeValues ms order) tb0 eq_refl Hnd)
    as (_ & Hback & Hforth & _).
  destruct (load_any_order (rangeValues ms order) tb0 eq_refl eq_refl)
    as (_ & Hlen & _ & Hvals & _).
  split; [| split].
  - rewrite Hlen. unfold rangeValues.
    assert (forall l : list string,
              (forall k, k ∈ l -> is_Some (pendingTimerInfoIDs ms !! k)) ->
              length (omap (fun k => pendingTimerInfoIDs ms !! k) l) = length l)
      as Hall.
    { induction l as [| k l IH]; intros Hsome; [reflexivity |].
      cbn [omap list_omap]. destruct (Hsome k ltac:(left)) as [v ->].
      cbn [length]. f_equal. apply IH. intros k' Hk'. apply Hsome. right.
      exact Hk'. }
    rewrite Hall by (intros k Hk; apply (rangeOrder_elem ms order k Hro), Hk).
    unfold rangeOrder in Hro. rewrite Hro, length_fmap.
    apply length_map_to_list.
  - intros k v Hk.
    destruct (Hforth v) as (td & Htd & Hl).
    { apply (rangeValues_elem ms order v Hro). eauto. }
    exists td. split; [exact Htd |].
    destruct (Hback td Htd) as (v' & Hv' & Hl' & Hlook).
    assert (v' = v) as ->.
    { apply (rangeValues_elem ms order v' Hro) in Hv' as [k' Hk'].
      assert (k' = k) as ->; [| congruence].
      apply (Hdist k' k v' v Hk' Hk).
      rewrite <- (loadedFrom_stamp _ _ Hl'), <- (loadedFrom_stamp _ _ Hl).
      reflexivity. }
    unfold UserTimer. rewrite Hlook. split; [reflexivity |].
    split; [apply (loadedFrom_TaskCreated _ _ Hl) |].
    unfold DeconstructTimerKey. cbn [fst]. apply (loadedFrom_stamp _ _ Hl).
  - intros s v. unfold UserTimer.
    destruct (pendingUserTimers (fold_left loadOne (rangeValues ms order) tb0)
                !! s) as [v' |] eqn:Hs; [| discriminate].
    intros [= <-]. apply Hvals in Hs.
    apply (rangeValues_elem ms order v' Hro) in Hs. exact Hs.
Qed.

End UserTimers.

(** Pending timers whose time stamp buckets are pairwise different lie in
    distinct buckets. *)
Lemma distinctStamps_NoDup ms :
  NoDup (stampOfTimer <$> (map_to_list (pendingTimerInfoIDs ms)).*2) ->
  distinctStamps ms.
Proof.
  intros Hnd k1 k2 v1 v2 H1 H2 Heq.
  apply elem_of_map_to_list in H1, H2.
  apply list_elem_of_lookup in H1 as [i1 H1], H2 as [i2 H2].
  assert (i1 = i2) as ->; [| congruence].
  eapply (NoDup_lookup _ i1 i2 _ Hnd); rewrite !list_lookup_fmap.
  - rewrite H1. reflexivity.
  - rewrite H2. cbn. rewrite Heq. reflexivity.
Qed.

Lemma twoPending_agree : timerKeysAgree twoPending.
Proof.
  intros k ti. unfold twoPending, UpdatePendingTimers.
  cbn [pendingTimerInfoIDs newMutableStateBuilder].
  rewrite !lookup_insert, lookup_empty.
  repeat case_decide; intros [= <-]; subst; reflexivity.
Qed.


Lemma AddUserTimer_twice_witness :
  0 <= 100 /\
  pendingTimerInfoIDs newMutableStateBuilder !! "t1"%string = None /\
  0 <= 0 /\
  exists task tb1 ms1 old,
    AddUserTimer 0 ["t1"%string] (newTimerBuilder shard0) "t1" 100 5
                 newMutableStateBuilder
      = Some ((task, None), tb1, ms1) /\
    pendingTimerInfoIDs ms1 !! "t1"%string = Some old /\
    AddUserTimer 7 ["t1"%string] tb1 "t1" 0 6 ms1
      = Some ((None, Some (ErrTimerIDExists "t1" old)), tb1, ms1).
Proof.
  split; [lia |]. split; [reflexivity |]. split; [lia |].
  apply (AddUserTimer_twice 0 7 ["t1"%string] ["t1"%string]
           (newTimerBuilder shard0) "t1" 100 5 0 6 newMutableStateBuilder);
    [lia | reflexivity | lia].
Defined.

(** ** The user timer theorems at example snapshots *)

Lemma AddUserTimer_keeps_pending_witness :
  timerKeysAgree twoPending /\
  0 <= 30 /\
  pendingTimerInfoIDs twoPending !! "c"%string = None /\
  exists task tb' ms',
    AddUserTimer 0 ["c"; "a"; "b"]%string (newTimerBuilder shard0) "c" 30 7
                 twoPending
      = Some ((task, None), tb', ms') /\
    timerKeysAgree ms' /\
    pendingActivityInfoIDs ms' = pendingActivityInfoIDs twoPending.
Proof.
  split; [exact twoPending_agree |]. split; [lia |]. split; [reflexivity |].
  destruct (AddUserTimer_keeps_pending 0 ["c"; "a"; "b"]%string
              (newTimerBuilder shard0) "c" 30 7 twoPending twoPending_agree
              ltac:(lia) eq_refl)
    as (task & tb' & ms' & Hrun & Hagree & Hact & _).
  exists task, tb', ms'. split; [exact Hrun |]. split; assumption.
Defined.

Lemma twoPending_rangeOrder :
  rangeOrder
    (UpdatePendingTimers twoPending "c"
       {| TimerInfo.TimerID := "c";
          TimerInfo.ExpiryTime := Time_Add 0 (wrap64 (30 * Second));
          TimerInfo.StartedID := 7;
          TimerInfo.TaskID := emptyTimerID |})
    ["c"; "a"; "b"]%string.
Proof.
  unfold rangeOrder.
  apply NoDup_Permutation; [compute_done | apply NoDup_fst_map_to_list |].
  intros k. rewrite list_elem_of_fmap. split.
  - intros Hk. assert (is_Some (pendingTimerInfoIDs
        (UpdatePendingTimers twoPending "c"
           {| TimerInfo.TimerID := "c";
              TimerInfo.ExpiryTime := Time_Add 0 (wrap64 (30 * Second));
              TimerInfo.StartedID := 7;
              TimerInfo.TaskID := emptyTimerID |}) !! k)) as [v Hv].
    { repeat (apply elem_of_cons in Hk as [-> | Hk]); try (vm_compute; eauto).
      apply elem_of_nil in Hk as []. }
    exists (k, v). split; [reflexivity | apply elem_of_map_to_list, Hv].
  - intros ([k' v] & -> & Hin). apply elem_of_map_to_list in Hin.
    unfold twoPending, UpdatePendingTimers in Hin.
    cbn [pendingTimerInfoIDs newMutableStateBuilder fst] in Hin |- *.
    rewrite !lookup_insert, lookup_empty in Hin.
    repeat case_decide; subst; try discriminate; set_solver.
Qed.

Lemma twoPending_distinctStamps :
  distinctStamps
    (UpdatePendingTimers twoPending "c"
       {| TimerInfo.TimerID := "c";
          TimerInfo.ExpiryTime := Time_Add 0 (wrap64 (30 * Second));
          TimerInfo.StartedID := 7;
          TimerInfo.TaskID := emptyTimerID |}).
Proof. apply distinctStamps_NoDup. compute_done. Qed.

Lemma AddUserTimer_task_for_earliest_witness :
  0 <= 30 /\
  pendingTimerInfoIDs twoPending !! "c"%string = None /\
  timerKeysAgree twoPending /\
  exists tb' ms',
    AddUserTimer 0 ["c"; "a"; "b"]%string (newTimerBuilder shard0) "c" 30 7
                 twoPending
      = Some ((Some (TaskUserTimer (UserTimerTask.mk 29997662209 7)), None),
              tb', ms') /\
    TimerInfo.TaskID <$> pendingTimerInfoIDs ms' !! "c"%string
      = Some 29997662209.
Proof.
  split; [lia |]. split; [reflexivity |]. split; [exact twoPending_agree |].
  destruct (AddUserTimer_task_for_earliest 0 ["c"; "a"; "b"]%string
              (newTimerBuilder shard0) "c" 30 7 twoPending
              ltac:(lia) eq_refl twoPending_agree twoPending_rangeOrder
              twoPending_distinctStamps)
    as (k0 & v0 & tb' & Hk0 & Hmin & Hrun).
  assert (k0 = "c"%string /\ v0 = TimerInfo.mk "c" 30000000000 7 emptyTimerID)
    as [-> ->].
  { specialize (Hmin "c"%string (TimerInfo.mk "c" 30000000000 7 emptyTimerID)
                     eq_refl).
    unfold twoPending, UpdatePendingTimers in Hk0.
    cbn [pendingTimerInfoIDs newMutableStateBuilder] in Hk0.
    rewrite !lookup_insert, lookup_empty in Hk0.
    repeat case_decide; try discriminate; injection Hk0 as <-; subst;
      try (split; reflexivity); vm_compute in Hmin; exfalso; apply Hmin;
      reflexivity. }
  cbn [taskCreated TimerInfo.TaskID] in Hrun.
  change (negb (emptyTimerID =? emptyTimerID)) with false in Hrun.
  cbn zeta in Hrun. destruct Hrun as (Hrun & _ & _).
  eexists _, _. split; [exact Hrun |]. reflexivity.
Defined.

Lemma LoadUserTimers_UserTimer_witness :
  rangeOrder twoPending ["b"; "a"]%string /\
  distinctStamps twoPending /\
  length (timers (LoadUserTimers ["b"; "a"]%string (newTimerBuilder shard0)
                                 twoPending))
    = size (pendingTimerInfoIDs twoPending).
Proof.
  assert (rangeOrder twoPending ["b"; "a"]%string) as Hro.
  { unfold rangeOrder.
    apply NoDup_Permutation; [compute_done | apply NoDup_fst_map_to_list |].
    intros k. rewrite list_elem_of_fmap. split.
    - intros Hk.
      assert (is_Some (pendingTimerInfoIDs twoPending !! k)) as [v Hv].
      { repeat (apply elem_of_cons in Hk as [-> | Hk]); try (vm_compute; eauto).
        apply elem_of_nil in Hk as []. }
      exists (k, v). split; [reflexivity | apply elem_of_map_to_list, Hv].
    - intros ([k' v] & -> & Hin). apply elem_of_map_to_list in Hin.
      unfold twoPending, UpdatePendingTimers in Hin.
      cbn [pendingTimerInfoIDs newMutableStateBuilder fst] in Hin |- *.
      rewrite !lookup_insert, lookup_empty in Hin.
      repeat case_decide; subst; try discriminate; set_solver. }
  assert (distinctStamps twoPending) as Hdist
    by (apply distinctStamps_NoDup; compute_done).
  split; [exact Hro |]. split; [exact Hdist |].
  apply (LoadUserTimers_UserTimer ["b"; "a"]%string (newTimerBuilder shard0)
           twoPending Hro Hdist).
Defined.

(** ** Runs in the order of the expiries, and against it *)


Section OrderedRuns.
Context {G : Type} {gen : SequenceNumberGenerator G}.



End OrderedRuns.





(** ** The expiry of a user timer *)

Section Expiry.
Context {G : Type} {gen : SequenceNumberGenerator G}.

(** The TimerInfo of the new timer after a call that passed both checks. *)
Lemma AddUserTimer_new_entry now order (tb : timerBuilder G) timerID
    fireTimeout startedID ms :
  timerKeysAgree ms ->
  0 <= fireTimeout ->
  pendingTimerInfoIDs ms !! timerID = None ->
  exists task tb' ms' ti,
    AddUserTimer now order tb timerID fireTimeout startedID ms
      = Some ((task, None), tb', ms') /\
    pendingTimerInfoIDs ms' !! timerID = Some ti /\
    TimerInfo.ExpiryTime ti = now + wrap64 (fireTimeout * 1000000000).
Proof.
  intros Hagree Hfire Hfresh.
  pose proof (AddUserTimer_shape now order tb timerID fireTimeout startedID ms
                Hfire Hfresh) as Hshape.
  cbn zeta in Hshape.
  set (new := {| TimerInfo.TimerID := timerID;
                 TimerInfo.ExpiryTime :=
                   Time_Add now (wrap64 (fireTimeout * Second));
                 TimerInfo.StartedID := startedID;
                 TimerInfo.TaskID := emptyTimerID |}) in *.
  set (ms1 := UpdatePendingTimers ms timerID new) in *.
  assert (pendingTimerInfoIDs ms1 !! timerID = Some new) as Hnew
    by apply lookup_insert_eq.
  destruct Hshape as [(tb' & Hrun & _)
                     | (tb' & k0 & v0 & u & Hk0 & _ & _ & _ & Hrun)].
  - exists None, tb', ms1, new. repeat split; assumption.
  - pose proof (timerKeysAgree_update ms timerID new Hagree eq_refl _ _ Hk0)
      as Hid0.
    rewrite Hid0 in Hrun.
    destruct (decide (k0 = timerID)) as [-> | Hne].
    + assert (v0 = new) as -> by (fold ms1 in Hk0; congruence).
      eexists _, tb', _, _. split; [exact Hrun |].
      split; [apply lookup_insert_eq | reflexivity].
    + eexists _, tb', _, new. split; [exact Hrun |]. split; [| reflexivity].
      unfold UpdatePendingTimers at 1. cbn [pendingTimerInfoIDs].
      rewrite lookup_insert_ne by exact Hne. exact Hnew.
Qed.

(** X20.  The expiry of a new user timer is [fireTimeout] seconds after the
    clock reading as long as the timeout fits a [time.Duration]: for
    timeouts from 0 up to 9223372036 seconds the stored expiry is
    [now + fireTimeout * 10^9] nanoseconds, not before [now].  A longer
    timeout overflows the multiplication with [time.Second]: up to
    18446744073 seconds the duration wraps to a negative one and the timer
    is stored with an expiry before [now]. *)
Theorem AddUserTimer_expiry (now : Z) (order : list string)
    (tb : timerBuilder G) (timerID : string) (fireTimeout startedID : Z)
    (ms : mutableStateBuilder) :
  timerKeysAgree ms ->
  0 <= fireTimeout ->
  pendingTimerInfoIDs ms !! timerID = None ->
  exists task tb' ms' ti,
    AddUserTimer now order tb timerID fireTimeout startedID ms
      = Some ((task, None), tb', ms') /\
    pendingTimerInfoIDs ms' !! timerID = Some ti /\
    (fireTimeout <= 9223372036 ->
     TimerInfo.ExpiryTime ti = now + fireTimeout * 1000000000 /\
     now <= TimerInfo.ExpiryTime ti) /\
    (9223372036 < fireTimeout <= 18446744073 ->
     TimerInfo.ExpiryTime ti = now + fireTimeout * 1000000000 - 2 ^ 64 /\
     TimerInfo.ExpiryTime ti < now).
Proof.
  intros Hagree Hfire Hfresh.
  destruct (AddUserTimer_new_entry now order tb timerID fireTimeout startedID
              ms Hagree Hfire Hfresh)
    as (task & tb' & ms' & ti & Hrun & Hti & Hexp).
  exists task, tb', ms', ti. split; [exact Hrun |]. split; [exact Hti |].
  rewrite Hexp. unfold wrap64. split; intros Hbound.
  - rewrite Z.mod_small by lia. lia.
  - replace ((fireTimeout * 1000000000 + 2 ^ 63) mod 2 ^ 64)
      with (fireTimeout * 1000000000 + 2 ^ 63 - 2 ^ 64); [lia |].
    apply Z.mod_unique with (q := 1); lia.
Qed.

End Expiry.

Lemma AddUserTimer_expiry_witness :
  timerKeysAgree twoPending /\
  0 <= 30 /\
  pendingTimerInfoIDs twoPending !! "c"%string = None /\
  exists task tb' ms' ti,
    AddUserTimer 5 ["c"; "a"; "b"]%string (newTimerBuilder shard0) "c" 30 7
                 twoPending
      = Some ((task, None), tb', ms') /\
    pendingTimerInfoIDs ms' !! "c"%string = Some ti /\
    TimerInfo.ExpiryTime ti = 5 + 30 * 1000000000.
Proof.
  split; [exact twoPending_agree |]. split; [lia |]. split; [reflexivity |].
  destruct (AddUserTimer_expiry 5 ["c"; "a"; "b"]%string
              (newTimerBuilder shard0) "c" 30 7 twoPending twoPending_agree
              ltac:(lia) eq_refl)
    as (task & tb' & ms' & ti & Hrun & Hti & Hsmall & _).
  exists task, tb', ms', ti. split; [exact Hrun |]. split; [exact Hti |].
  apply Hsmall. lia.
Defined.
